(** * csvToXML: the cable CSV to XML converter

    A shallow embedding of [src/csvToXML.py] (class [XMLCablesDocument]) and
    the properties of its record parser.

    Python text is modelled by [string]; a character is a code point below
    256, so the character classes of [re] and [str] are given on that range
    as CPython defines them for [str] (Unicode) patterns. *)

From Stdlib Require Import String Ascii List Bool Arith NArith Lia DecimalString.
Import ListNotations.
Local Open Scope string_scope.
Local Open Scope list_scope.

(** ** Characters and the [str] methods the converter calls *)

Module PyStr.

Definition ord (c : ascii) : N := N_of_ascii c.

Definition between (lo hi : N) (c : ascii) : bool :=
  (N.leb lo (ord c) && N.leb (ord c) hi)%bool.

Definition LF : ascii := ascii_of_nat 10.
Definition CR : ascii := ascii_of_nat 13.
Definition TAB : ascii := ascii_of_nat 9.
Definition SQUOTE : ascii := ascii_of_nat 39.
Definition DQUOTE : ascii := ascii_of_nat 34.
Definition BACKSLASH : ascii := ascii_of_nat 92.

(** [str.isspace] on one character, also the class [\s]. *)
Definition isspace (c : ascii) : bool :=
  between 9 13 c || between 28 32 c || N.eqb (ord c) 133 || N.eqb (ord c) 160.

(** The class [\d]: decimal digits. *)
Definition isdecimal (c : ascii) : bool := between 48 57 c.

(** The class [\w]: alphanumeric characters and the underscore. *)
Definition isword (c : ascii) : bool :=
  between 48 57 c || between 65 90 c || between 97 122 c || N.eqb (ord c) 95
  || N.eqb (ord c) 170 || between 178 179 c || N.eqb (ord c) 181
  || between 185 186 c || between 188 190 c
  || between 192 214 c || between 216 246 c || between 248 255 c.

(** [str.isprintable] on one character. *)
Definition isprintable (c : ascii) : bool :=
  negb (between 0 31 c || between 127 160 c || N.eqb (ord c) 173).

Fixpoint lstrip (s : string) : string :=
  match s with
  | EmptyString => EmptyString
  | String c s' => if isspace c then lstrip s' else s
  end.

Fixpoint rstrip (s : string) : string :=
  match s with
  | EmptyString => EmptyString
  | String c s' =>
      match rstrip s' with
      | EmptyString => if isspace c then EmptyString else String c EmptyString
      | r => String c r
      end
  end.

(** [s.strip()] *)
Definition strip (s : string) : string := rstrip (lstrip s).

(** [s.split(sep)] for a separator of one character. *)
Fixpoint split (sep : ascii) (s : string) : list string :=
  match s with
  | EmptyString => [EmptyString]
  | String c s' =>
      if Ascii.eqb c sep then EmptyString :: split sep s'
      else match split sep s' with
           | h :: t => String c h :: t
           | [] => [String c EmptyString]
           end
  end.

(** [sep.join(l)] *)
Fixpoint join (sep : ascii) (l : list string) : string :=
  match l with
  | [] => EmptyString
  | [x] => x
  | x :: rest => x ++ String sep (join sep rest)
  end.

Fixpoint contains (c : ascii) (s : string) : bool :=
  match s with
  | EmptyString => false
  | String d s' => Ascii.eqb c d || contains c s'
  end.

Definition hexdigit (n : N) : ascii :=
  if N.ltb n 10 then ascii_of_N (48 + n) else ascii_of_N (87 + n).

Definition hex_escape (c : ascii) : string :=
  String BACKSLASH (String "x" (String (hexdigit (N.div (ord c) 16))
    (String (hexdigit (N.modulo (ord c) 16)) EmptyString))).

Definition repr_char (quote c : ascii) : string :=
  if Ascii.eqb c quote || Ascii.eqb c BACKSLASH then String BACKSLASH (String c EmptyString)
  else if Ascii.eqb c TAB then String BACKSLASH "t"
  else if Ascii.eqb c LF then String BACKSLASH "n"
  else if Ascii.eqb c CR then String BACKSLASH "r"
  else if N.ltb (ord c) 32 || N.eqb (ord c) 127 then hex_escape c
  else if N.ltb (ord c) 127 then String c EmptyString
  else if isprintable c then String c EmptyString
  else hex_escape c.

Fixpoint repr_body (quote : ascii) (s : string) : string :=
  match s with
  | EmptyString => EmptyString
  | String c s' => repr_char quote c ++ repr_body quote s'
  end.

(** [repr(s)] *)
Definition repr (s : string) : string :=
  let quote := if contains SQUOTE s && negb (contains DQUOTE s) then DQUOTE else SQUOTE in
  String quote (repr_body quote s ++ String quote EmptyString).

(** [str(n)] for a non-negative integer. *)
Definition str (n : nat) : string := NilZero.string_of_uint (Nat.to_uint n).

(** [int(s)] on a string of ASCII decimal digits, a leading space allowed
    (the only shapes the timestamp groups produce). *)
Fixpoint int_acc (acc : nat) (s : string) : nat :=
  match s with
  | EmptyString => acc
  | String c s' =>
      if isdecimal c then int_acc (10 * acc + (nat_of_ascii c - 48)) s'
      else int_acc acc s'
  end.

Definition int (s : string) : nat := int_acc 0 s.

End PyStr.

(** ** The fragment of [re] the converter uses

    A backtracking matcher in continuation-passing style: alternatives are
    tried left to right, a greedy repetition tries the longer match first, a
    lazy one the shorter, and the groups recorded are those of the first
    complete match, as in CPython's [sre]. Repetition is over one character
    class, which is all the patterns of the program need. *)

Module Re.
Import PyStr.

Inductive regex : Type :=
| Eps
| Lit (c : ascii)
| Class (p : ascii -> bool)
| Bol
| Eol
| Seq (r1 r2 : regex)
| Alt (r1 r2 : regex)
| Opt (r : regex)
| Plus (p : ascii -> bool)
| PlusLazy (p : ascii -> bool)
| Group (n : nat) (r : regex).

Declare Scope regex_scope.
Delimit Scope regex_scope with re.
Bind Scope regex_scope with regex.
Notation "r1 '>>' r2" := (Seq r1 r2) (at level 61, right associativity) : regex_scope.
Notation "r1 '//' r2" := (Alt r1 r2) (at level 62, right associativity) : regex_scope.

(** A literal run of characters. *)
Fixpoint Str (s : string) : regex :=
  match s with
  | EmptyString => Eps
  | String c s' => Seq (Lit c) (Str s')
  end.

(** The classes written in the patterns. *)
Definition dot (c : ascii) : bool := negb (Ascii.eqb c LF).
Definition nondigit (c : ascii) : bool := negb (isdecimal c).
Definition crlf (c : ascii) : bool := Ascii.eqb c CR || Ascii.eqb c LF.
Definition word_or_space (c : ascii) : bool := isword c || isspace c.
Definition range (lo hi : ascii) (c : ascii) : bool := between (ord lo) (ord hi) c.

(** Group number to captured text; the most recent binding comes first. *)
Definition captures := list (nat * string).

Fixpoint group (m : captures) (n : nat) : option string :=
  match m with
  | [] => None
  | (k, v) :: m' => if Nat.eqb k n then Some v else group m' n
  end.

(** End position of the match and its groups. *)
Definition outcome := option (nat * captures).

(** [$] without MULTILINE: at the end, or before a final line feed. *)
Definition at_end (s : string) : bool :=
  match s with
  | EmptyString => true
  | String c EmptyString => Ascii.eqb c LF
  | _ => false
  end.

Fixpoint run (r : regex) (pos : nat) (s : string) (caps : captures)
    (k : nat -> string -> captures -> outcome) {struct r} : outcome :=
  match r with
  | Eps => k pos s caps
  | Lit c =>
      match s with
      | String d s' => if Ascii.eqb c d then k (S pos) s' caps else None
      | EmptyString => None
      end
  | Class p =>
      match s with
      | String d s' => if p d then k (S pos) s' caps else None
      | EmptyString => None
      end
  | Bol => if Nat.eqb pos 0 then k pos s caps else None
  | Eol => if at_end s then k pos s caps else None
  | Seq r1 r2 => run r1 pos s caps (fun pos' s' caps' => run r2 pos' s' caps' k)
  | Alt r1 r2 =>
      match run r1 pos s caps k with
      | Some res => Some res
      | None => run r2 pos s caps k
      end
  | Opt r1 =>
      match run r1 pos s caps k with
      | Some res => Some res
      | None => k pos s caps
      end
  | Plus p =>
      (fix more (pos : nat) (s : string) : outcome :=
         match s with
         | String d s' =>
             if p d then
               match more (S pos) s' with
               | Some res => Some res
               | None => k (S pos) s' caps
               end
             else None
         | EmptyString => None
         end) pos s
  | PlusLazy p =>
      (fix more (pos : nat) (s : string) : outcome :=
         match s with
         | String d s' =>
             if p d then
               match k (S pos) s' caps with
               | Some res => Some res
               | None => more (S pos) s'
               end
             else None
         | EmptyString => None
         end) pos s
  | Group n r1 =>
      run r1 pos s caps
        (fun pos' s' caps' => k pos' s' ((n, substring 0 (pos' - pos) s) :: caps'))
  end.

Definition accept : nat -> string -> captures -> outcome :=
  fun pos _ caps => Some (pos, caps).

(** [re.match(r, s)]: a match anchored at position 0, or [None]. *)
Definition rmatch (r : regex) (s : string) : outcome := run r 0 s [] accept.

(** [re.findall(r, s)] for a pattern with one group that cannot match the
    empty string: the text of group 1 of each successive match, a search
    resuming where the previous match ended. [skip] counts the characters
    still covered by the previous match. *)
Fixpoint findall_at (r : regex) (skip pos : nat) (s : string) : list string :=
  let here := match skip with
              | 0 => run r pos s [] accept
              | S _ => None
              end in
  match here with
  | Some (e, caps) =>
      let g := match group caps 1 with Some v => v | None => EmptyString end in
      g :: match s with
           | EmptyString => []
           | String _ s' => findall_at r (e - pos - 1) (S pos) s'
           end
  | None =>
      match s with
      | EmptyString => []
      | String _ s' => findall_at r (pred skip) (S pos) s'
      end
  end.

Definition findall (r : regex) (s : string) : list string := findall_at r 0 0 s.

(** [binds r n]: group [n] lies on every path through [r], so every match
    of [r] sets it. *)
Fixpoint binds (r : regex) (n : nat) : bool :=
  match r with
  | Group k r1 => Nat.eqb k n || binds r1 n
  | Seq r1 r2 => binds r1 n || binds r2 n
  | Alt r1 r2 => binds r1 n && binds r2 n
  | _ => false
  end.

End Re.

(** ** [time.strptime] at the format of the converter *)

Module PyTime.
Import PyStr Re.

Record struct_time := {
  tm_year : nat;
  tm_mon : nat;
  tm_mday : nat;
  tm_hour : nat;
  tm_min : nat
}.

Definition digit : regex := Class isdecimal.

(** The pattern [_strptime] compiles for ["%m/%d/%Y %H:%M"]:
    [(?P<m>1[0-2]|0[1-9]|[1-9])/(?P<d>3[0-1]|[1-2]\d|0[1-9]|[1-9]| [1-9])/]
    [(?P<Y>\d\d\d\d)\s+(?P<H>2[0-3]|[0-1]\d|\d):(?P<M>[0-5]\d|\d)];
    groups m, d, Y, H, M are numbered 1 to 5. *)
Definition format_regex : regex :=
  (Group 1 ((Lit "1" >> Class (range "0" "2"))
            // (Lit "0" >> Class (range "1" "9"))
            // Class (range "1" "9"))
   >> Lit "/"
   >> Group 2 ((Lit "3" >> Class (range "0" "1"))
               // (Class (range "1" "2") >> digit)
               // (Lit "0" >> Class (range "1" "9"))
               // Class (range "1" "9")
               // (Lit " " >> Class (range "1" "9")))
   >> Lit "/"
   >> Group 3 (digit >> digit >> digit >> digit)
   >> Plus isspace
   >> Group 4 ((Lit "2" >> Class (range "0" "3"))
               // (Class (range "0" "1") >> digit)
               // digit)
   >> Lit ":"
   >> Group 5 ((Class (range "0" "5") >> digit) // digit))%re.

Definition is_leap (y : nat) : bool :=
  Nat.eqb (y mod 4) 0 && (negb (Nat.eqb (y mod 100) 0) || Nat.eqb (y mod 400) 0).

Definition days_in_month (y m : nat) : nat :=
  match m with
  | 2 => if is_leap y then 29 else 28
  | 4 | 6 | 9 | 11 => 30
  | _ => 31
  end.

Definition field (found : captures) (n : nat) : nat :=
  match group found n with
  | Some v => int v
  | None => 0
  end.

(** [time.strptime(data_string, "%m/%d/%Y %H:%M")]; [None] stands for the
    [ValueError] it raises: the text does not match the format, unconverted
    text remains after the match, or the date does not exist
    ([datetime.date] refuses it when the day of the year is computed). *)
Definition strptime (data_string : string) : option struct_time :=
  match rmatch format_regex data_string with
  | None => None
  | Some (e, found) =>
      if negb (Nat.eqb e (String.length data_string)) then None
      else
        let year := field found 3 in
        let month := field found 1 in
        let day := field found 2 in
        if Nat.leb 1 year && Nat.leb 1 day && Nat.leb day (days_in_month year month)
        then Some {| tm_year := year; tm_mon := month; tm_mday := day;
                     tm_hour := field found 4; tm_min := field found 5 |}
        else None
  end.

End PyTime.

(** ** The patterns of the converter *)

Module Patterns.
Import PyStr Re.

(** ["^(?P<eoline>E\.\s?O\. (?:.+))"], group eoline = 1 *)
Definition eo_re : regex :=
  (Bol >> Group 1 (Str "E." >> Opt (Class isspace) >> Str "O. " >> Plus dot))%re.

(** ["^TAGS: (?P<tagslist>.+)"], group tagslist = 1 *)
Definition tags_re : regex := (Bol >> Str "TAGS: " >> Group 1 (Plus dot))%re.

(** ["(\w+)(?:,\s|$)"] *)
Definition tag_re : regex :=
  (Group 1 (Plus isword) >> ((Lit "," >> Class isspace) // Eol))%re.

(** ["^(?:SUBJECT:|SUBJ:) (?P<subject>.+)"], group subject = 1 *)
Definition subject_re : regex :=
  (Bol >> (Str "SUBJECT:" // Str "SUBJ:") >> Lit " " >> Group 1 (Plus dot))%re.

(** ["^(?:REF:) (?P<ref>.+)"], group ref = 1 *)
Definition ref_re : regex := (Bol >> Str "REF:" >> Lit " " >> Group 1 (Plus dot))%re.

(** The header pattern, groups ref = 1, month = 2, year = 3, fromlist = 4,
    tolist = 5, infolist = 6:
    ["^(?P<ref>(?:.+) (?P<month>\D{3}) (?P<year>\d{2})(?: .+)?)"]
    ["[\r\n]+FM (?P<fromlist>[\w\s]+)"]
    ["[\r\n]+TO (?P<tolist>[\w\s]+?)"]
    ["(?:(?:[\r\n]+INFO) (?P<infolist>[\w\s]+))?$"] *)
Definition header_re : regex :=
  (Bol
   >> Group 1 (Plus dot >> Lit " "
               >> Group 2 (Class nondigit >> Class nondigit >> Class nondigit)
               >> Lit " "
               >> Group 3 (Class isdecimal >> Class isdecimal)
               >> Opt (Lit " " >> Plus dot))
   >> Plus crlf >> Str "FM " >> Group 4 (Plus word_or_space)
   >> Plus crlf >> Str "TO " >> Group 5 (PlusLazy word_or_space)
   >> Opt ((Plus crlf >> Str "INFO") >> Lit " " >> Group 6 (Plus word_or_space))
   >> Eol)%re.

End Patterns.

(** ** [xml.etree.ElementTree]: elements, and handles into a tree *)

Module ET.

#[warnings="-register-all"]
Inductive Element : Type :=
  mkElement (tag : string) (attrib : list (string * string))
            (text : option string) (children : list Element).

Definition tag (e : Element) : string := let (t, _, _, _) := e in t.
Definition attrib (e : Element) : list (string * string) := let (_, a, _, _) := e in a.
Definition text (e : Element) : option string := let (_, _, x, _) := e in x.
Definition children (e : Element) : list Element := let (_, _, _, c) := e in c.

(** [ET.Element(tag)] *)
Definition new (t : string) (a : list (string * string)) : Element :=
  mkElement t a None [].

Definition append (c : Element) (e : Element) : Element :=
  mkElement (tag e) (attrib e) (text e) (children e ++ [c]).

Definition with_text (v : string) (e : Element) : Element :=
  mkElement (tag e) (attrib e) (Some v) (children e).

Definition with_children (cs : list Element) (e : Element) : Element :=
  mkElement (tag e) (attrib e) (text e) cs.

(** A reference to an element of the tree is the list of child positions
    that leads to it from the root. Elements are only ever appended, so a
    reference keeps designating the same element. *)
Definition ref := list nat.

Fixpoint alter_nth (i : nat) (f : Element -> Element) (l : list Element) : list Element :=
  match l, i with
  | [], _ => []
  | x :: l', 0 => f x :: l'
  | x :: l', S i' => x :: alter_nth i' f l'
  end.

(** Apply [f] to the element that [p] designates. *)
Fixpoint alter (p : ref) (f : Element -> Element) (e : Element) : Element :=
  match p with
  | [] => f e
  | i :: p' => with_children (alter_nth i (alter p' f) (children e)) e
  end.

Fixpoint find (p : ref) (e : Element) : option Element :=
  match p with
  | [] => Some e
  | i :: p' =>
      match nth_error (children e) i with
      | Some c => find p' c
      | None => None
      end
  end.

(** Child elements with a given tag, in document order. *)
Definition findall (t : string) (e : Element) : list Element :=
  filter (fun c => String.eqb (tag c) t) (children e).

End ET.

(** ** The converter: state, exceptions and the three parsing methods *)

Module CsvToXML.
Import PyStr Re PyTime Patterns ET.

(** The [XMLCablesDocument] object ([root], and [xmlString] once a record
    has been parsed) together with the lines printed so far.

    [xmlString] is [ET.tostring(self.root)]: the serialised bytes are a
    function of the tree at that moment, so the state keeps that tree. *)
Record state := {
  root : Element;
  xmlString : option Element;
  stdout : list string
}.

(** [XMLCablesDocument()] *)
Definition init : state :=
  {| root := new "root" []; xmlString := None; stdout := [] |}.

Inductive exn := IndexError | ValueError | AttributeError | UnboundLocalError | StopIteration.

Definition exn_eqb (a b : exn) : bool :=
  match a, b with
  | IndexError, IndexError | ValueError, ValueError | AttributeError, AttributeError
  | UnboundLocalError, UnboundLocalError | StopIteration, StopIteration => true
  | _, _ => false
  end.

Inductive result (A : Type) : Type :=
| Return (a : A)
| Raise (e : exn).
Arguments Return {A} a.
Arguments Raise {A} e.

(** A statement: it runs on a state, changes it, and returns or raises. The
    changes made before an exception is raised stay. *)
Definition M (A : Type) : Type := state -> result A * state.

Definition ret {A} (a : A) : M A := fun st => (Return a, st).

Definition raise {A} (e : exn) : M A := fun st => (Raise e, st).

Definition bind {A B} (c : M A) (k : A -> M B) : M B :=
  fun st =>
    match c st with
    | (Return a, st') => k a st'
    | (Raise e, st') => (Raise e, st')
    end.

(** [try: body  except e: handler] *)
Definition try_except {A} (body : M A) (e : exn) (handler : M A) : M A :=
  fun st =>
    match body st with
    | (Return a, st') => (Return a, st')
    | (Raise e', st') => if exn_eqb e e' then handler st' else (Raise e', st')
    end.

Declare Scope py_scope.
Delimit Scope py_scope with py.
Notation "x <- c ;; k" := (bind c (fun x => k))
  (at level 100, c at next level, right associativity) : py_scope.
Notation "' pat <- c ;; k" := (bind c (fun x => match x with pat => k end))
  (at level 100, pat pattern, c at next level, right associativity) : py_scope.
Notation "c ;; k" := (bind c (fun _ => k))
  (at level 100, right associativity) : py_scope.
Local Open Scope py_scope.

(** [print(line)] *)
Definition print (line : string) : M unit :=
  fun st => (Return tt, {| root := root st; xmlString := xmlString st;
                           stdout := stdout st ++ [line] |}).

(** [l[i]] *)
Definition getitem (l : list string) (i : nat) : M string :=
  match nth_error l i with
  | Some v => ret v
  | None => raise IndexError
  end.

(** Reading a local variable that an earlier branch may have left unassigned. *)
Definition local {A} (v : option A) : M A :=
  match v with
  | Some a => ret a
  | None => raise UnboundLocalError
  end.

(** [v.strip()] where [v] is what [m.group(...)] returned: [None] has no
    such method. *)
Definition group_strip (v : option string) : M string :=
  match v with
  | Some s => ret (strip s)
  | None => raise AttributeError
  end.

(** [time.strptime(s, "%m/%d/%Y %H:%M")] *)
Definition time_strptime (s : string) : M struct_time :=
  match strptime s with
  | Some t => ret t
  | None => raise ValueError
  end.

(** [ET.SubElement(parent, tag, **attrib)]: a new element appended to the
    children of [parent]; the result designates it. *)
Definition SubElement (parent : ref) (t : string) (a : list (string * string)) : M ref :=
  fun st =>
    let n := match find parent (root st) with
             | Some e => List.length (children e)
             | None => 0
             end in
    (Return (parent ++ [n]),
     {| root := alter parent (append (new t a)) (root st);
        xmlString := xmlString st; stdout := stdout st |}).

(** [node.text = v] *)
Definition set_text (node : ref) (v : option string) : M unit :=
  fun st =>
    (Return tt,
     {| root := alter node (fun e => mkElement (tag e) (attrib e) v (children e)) (root st);
        xmlString := xmlString st; stdout := stdout st |}).

(** The idiom [ET.SubElement(parent, tag).text = v] *)
Definition SubElementText (parent : ref) (t : string) (v : option string) : M unit :=
  node <- SubElement parent t [] ;;
  set_text node v.

(** [self.xmlString = ET.tostring(self.root, method="xml")] *)
Definition save_xmlString : M unit :=
  fun st => (Return tt, {| root := root st; xmlString := Some (root st);
                           stdout := stdout st |}).

(** [for x in l: body(x)] *)
Fixpoint for_each {A} (l : list A) (body : A -> M unit) : M unit :=
  match l with
  | [] => ret tt
  | x :: l' => body x ;; for_each l' body
  end.

(** [for x in iterator: ...] where the body may [break] (it returns [true]
    when it does). The loop consumes the iterator; the result tells whether
    the loop was left by [break] and what the iterator still holds. *)
Fixpoint for_break {A} (iterator : list A) (body : A -> M bool) : M (bool * list A) :=
  match iterator with
  | [] => ret (false, [])
  | x :: rest =>
      broke <- body x ;;
      if (broke : bool) then ret (true, rest) else for_break rest body
  end.

Definition WARN_EO : string := "WARNING: E.O. line not found within cable content.".
Definition WARN_TAGS : string := "WARNING: TAGS not found within cable content.".
Definition WARN_SUBJECT : string := "WARNING: SUBJECT not found within cable content.".
Definition WARN_TIME : string := "WARNING: Time/Date field provided in invalid format.".
Definition WARN_HEADER : string := "WARNING: Header provided in invalid format.".

(** [if(not foundItem): lineIterator = iter(cableLines); print(warning)]
    [else: foundItem = False]; the result is the iterator the next loop uses. *)
Definition reset_on_miss (foundItem : bool) (cableLines lineIterator : list string)
    (warning : string) : M (list string) :=
  if negb foundItem then print warning ;; ret cableLines
  else ret lineIterator.

Definition parseCableMessageText (cableNode : ref) (contentText : string) : M unit :=
  contentNode <- SubElement cableNode "content" [] ;;
  let cableLines := split LF contentText in
  let lineIterator := cableLines in
  (* E.O. Line *)
  '(foundItem, lineIterator) <-
    for_break lineIterator (fun currentLine =>
      match rmatch eo_re currentLine with
      | Some (_, m) =>
          v <- group_strip (group m 1) ;;
          SubElementText contentNode "eoline" (Some v) ;;
          ret true
      | None => ret false
      end) ;;
  lineIterator <- reset_on_miss foundItem cableLines lineIterator WARN_EO ;;
  (* TAGS in message *)
  '(foundItem, lineIterator) <-
    for_break lineIterator (fun currentLine =>
      match rmatch tags_re currentLine with
      | Some (_, m) =>
          v <- group_strip (group m 1) ;;
          let tagsList := Re.findall tag_re v in
          tagsNode <- SubElement contentNode "tags"
                        [("count", str (List.length tagsList))] ;;
          for_each tagsList (fun currentTag =>
            SubElementText tagsNode "tag" (Some currentTag)) ;;
          ret true
      | None => ret false
      end) ;;
  lineIterator <- reset_on_miss foundItem cableLines lineIterator WARN_TAGS ;;
  (* SUBJECT in message *)
  '(foundItem, lineIterator) <-
    for_break lineIterator (fun currentLine =>
      match rmatch subject_re currentLine with
      | Some (_, m) =>
          v <- group_strip (group m 1) ;;
          SubElementText contentNode "subject" (Some v) ;;
          ret true
      | None => ret false
      end) ;;
  lineIterator <- reset_on_miss foundItem cableLines lineIterator WARN_SUBJECT ;;
  (* REF in message. Optional. *)
  for_break lineIterator (fun currentLine =>
    match rmatch ref_re currentLine with
    | Some (_, m) =>
        v <- group_strip (group m 1) ;;
        SubElementText contentNode "ref" (Some v) ;;
        ret true
    | None => ret false
    end) ;;
  (* Also retain full free text *)
  SubElementText contentNode "fullText" (Some (repr (strip contentText))).


Definition is_none {A} (v : option A) : bool :=
  match v with
  | None => true
  | Some _ => false
  end.

(** One institution list of the header, [which] being from, to or info:
    [if(m.group(name) == None): count = 0]
    [else: text = m.group(n).strip().split("\n"); count = len(text)]
    then the element with its count, then one child per entry. *)
Definition header_list (header : ref) (which : string) (g : option string) : M unit :=
  '(count, entries) <-
    (if is_none g then ret (0, None)
     else
       v <- group_strip g ;;
       let entries := split LF v in
       ret (List.length entries, Some entries)) ;;
  node <- SubElement header which [("count", str count)] ;;
  if Nat.ltb 0 count then
    entries <- local entries ;;
    for_each entries (fun current =>
      SubElementText node "institution" (Some (strip current)))
  else ret tt.

Definition parseCSVLine (csvLine : list string) : M unit :=
  (* ID *)
  idInSource <- getitem csvLine 0 ;;
  thisCable <- SubElement [] "cable" [("idInSource", idInSource)] ;;
  (* Date & Time *)
  try_except
    (field1 <- getitem csvLine 1 ;;
     cableDateTime <- time_strptime field1 ;;
     SubElementText thisCable "year" (Some (str (tm_year cableDateTime))) ;;
     SubElementText thisCable "month" (Some (str (tm_mon cableDateTime))) ;;
     SubElementText thisCable "day" (Some (str (tm_mday cableDateTime))) ;;
     SubElementText thisCable "hour" (Some (str (tm_hour cableDateTime))) ;;
     SubElementText thisCable "minute" (Some (str (tm_min cableDateTime))))
    ValueError
    (print WARN_TIME) ;;
  (* Reference, origin, classification *)
  field2 <- getitem csvLine 2 ;;
  SubElementText thisCable "reference" (Some field2) ;;
  field3 <- getitem csvLine 3 ;;
  SubElementText thisCable "origin" (Some field3) ;;
  field4 <- getitem csvLine 4 ;;
  SubElementText thisCable "classification" (Some field4) ;;
  (* Source(s) *)
  field5 <- getitem csvLine 5 ;;
  '(sourcesCount, sourcesText) <-
    (if String.eqb field5 "" then ret (0, None)
     else
       field5 <- getitem csvLine 5 ;;
       let sourcesText := split "|" field5 in
       ret (List.length sourcesText, Some sourcesText)) ;;
  sources <- SubElement thisCable "sources" [("count", str sourcesCount)] ;;
  (if Nat.ltb 0 sourcesCount then
     sourcesText <- local sourcesText ;;
     for_each sourcesText (fun currentSource =>
       SubElementText sources "source" (Some currentSource))
   else ret tt) ;;
  (* Header *)
  header <- SubElement thisCable "header" [] ;;
  field6 <- getitem csvLine 6 ;;
  match rmatch header_re field6 with
  | Some (_, m) =>
      (* Header REF / MONTH / YEAR *)
      v <- group_strip (group m 1) ;;
      SubElementText header "ref" (Some v) ;;
      SubElementText header "month" (group m 2) ;;
      SubElementText header "year" (group m 3) ;;
      header_list header "from" (group m 4) ;;
      header_list header "to" (group m 5) ;;
      header_list header "info" (group m 6)
  | None => print WARN_HEADER
  end ;;
  (* Message Text *)
  field7 <- getitem csvLine 7 ;;
  parseCableMessageText thisCable field7 ;;
  (* Save *)
  save_xmlString.

(** What [csv.reader] yields: each row with the reader's [line_num] once
    the row has been read. Opening the file and splitting it into rows are
    the reader's work and are not modelled. *)
Definition csvreader := list (nat * list string).

(** [next(iterator)] *)
Definition next {A} (iterator : list A) : M (A * list A) :=
  match iterator with
  | x :: rest => ret (x, rest)
  | [] => raise StopIteration
  end.

Definition ERROR_EMPTY (filePath : string) : string :=
  "ERROR: File " ++ String DQUOTE filePath ++ String DQUOTE " is empty.".

Definition ERROR_LINE (line_num : nat) : string :=
  "ERROR: Line " ++ str line_num ++
  " of CSV file does not contain 8 values in the appropriate format. Skipping remaining lines.".

(** The loop [for currentLine in csvreader] of [parseCSVFile]; the function
    returns [None] after it, and from inside it on a row that does not hold
    8 values. *)
Fixpoint parse_rows (rows : csvreader) : M (option bool) :=
  match rows with
  | [] => ret None
  | (line_num, currentLine) :: rest =>
      if negb (Nat.eqb (List.length currentLine) 8) then
        print (ERROR_LINE line_num) ;;
        ret None
      else
        parseCSVLine currentLine ;;
        parse_rows rest
  end.

(** [parseCSVFile(filePath)], given the rows the reader yields for the
    file. The result is what the method returns: [False] or [None]. *)
Definition parseCSVFile (filePath : string) (reader : csvreader) : M (option bool) :=
  fun st =>
    match next reader st with
    | (Return (_, reader'), st') => parse_rows reader' st'
    | (Raise StopIteration, st') =>
        (print (ERROR_EMPTY filePath) ;; ret (Some false)) st'
    | (Raise e, st') => (Raise e, st')
    end.

End CsvToXML.

(** ** The tree and the lines one record produces, read off the code

    These functions describe, without state, what [parseCSVLine] appends to
    the document and prints; [parseCSVLine_run] below proves that the
    method computes exactly this. *)

Module Shape.
Import PyStr Re PyTime Patterns ET CsvToXML.

Definition leaf (t v : string) : Element := mkElement t [] (Some v) [].

Definition captured (m : captures) (n : nat) : string :=
  match group m n with
  | Some v => v
  | None => EmptyString
  end.

Definition datetime_elements (field1 : string) : list Element :=
  match strptime field1 with
  | Some t =>
      [leaf "year" (str (tm_year t)); leaf "month" (str (tm_mon t));
       leaf "day" (str (tm_mday t)); leaf "hour" (str (tm_hour t));
       leaf "minute" (str (tm_min t))]
  | None => []
  end.

Definition datetime_lines (field1 : string) : list string :=
  match strptime field1 with
  | Some _ => []
  | None => [WARN_TIME]
  end.

Definition sources_list (field5 : string) : list string :=
  if String.eqb field5 "" then [] else split "|" field5.

Definition sources_element (field5 : string) : Element :=
  mkElement "sources" [("count", str (List.length (sources_list field5)))] None
    (map (leaf "source") (sources_list field5)).

Definition institutions (g : option string) : list string :=
  match g with
  | Some v => split LF (strip v)
  | None => []
  end.

Definition institution_list (which : string) (g : option string) : Element :=
  mkElement which [("count", str (List.length (institutions g)))] None
    (map (fun current => leaf "institution" (strip current)) (institutions g)).

Definition header_element (field6 : string) : Element :=
  mkElement "header" [] None
    match rmatch header_re field6 with
    | Some (_, m) =>
        [leaf "ref" (strip (captured m 1));
         mkElement "month" [] (group m 2) [];
         mkElement "year" [] (group m 3) [];
         institution_list "from" (group m 4);
         institution_list "to" (group m 5);
         institution_list "info" (group m 6)]
    | None => []
    end.

Definition header_lines (field6 : string) : list string :=
  match rmatch header_re field6 with
  | Some _ => []
  | None => [WARN_HEADER]
  end.

(** The first line, from the cursor on, that the pattern matches: the text
    of its group 1 and the cursor after that line. *)
Fixpoint scan (re : regex) (cursor : list string) : option (string * list string) :=
  match cursor with
  | [] => None
  | line :: rest =>
      match rmatch re line with
      | Some (_, m) => Some (captured m 1, rest)
      | None => scan re rest
      end
  end.

Definition tags_element (tagslist : string) : Element :=
  let tagsList := Re.findall tag_re (strip tagslist) in
  mkElement "tags" [("count", str (List.length tagsList))] None (map (leaf "tag") tagsList).

(** One target field: the element recorded (if any), the warning printed
    (if any) and the cursor for the next field. *)
Definition extract (re : regex) (build : string -> Element) (warning : list string)
    (cableLines cursor : list string) : list Element * list string * list string :=
  match scan re cursor with
  | Some (v, rest) => ([build v], [], rest)
  | None => ([], warning, cableLines)
  end.

Definition eoline_element (v : string) : Element := leaf "eoline" (strip v).
Definition subject_element (v : string) : Element := leaf "subject" (strip v).
Definition ref_element (v : string) : Element := leaf "ref" (strip v).

(** The four target fields in order: the elements recorded and the
    warnings printed. *)
Definition content_fields (cableLines : list string) : list Element * list string :=
  let '(eo, w1, cursor1) := extract eo_re eoline_element [WARN_EO] cableLines cableLines in
  let '(tg, w2, cursor2) := extract tags_re tags_element [WARN_TAGS] cableLines cursor1 in
  let '(sj, w3, cursor3) := extract subject_re subject_element [WARN_SUBJECT] cableLines cursor2 in
  let '(rf, _, _) := extract ref_re ref_element [] cableLines cursor3 in
  (eo ++ tg ++ sj ++ rf, w1 ++ w2 ++ w3).

Definition content_element (contentText : string) : Element :=
  mkElement "content" [] None
    (fst (content_fields (split LF contentText))
     ++ [leaf "fullText" (repr (strip contentText))]).

Definition content_lines (contentText : string) : list string :=
  snd (content_fields (split LF contentText)).

Definition field (csvLine : list string) (i : nat) : string := nth i csvLine EmptyString.

Definition cable_element (csvLine : list string) : Element :=
  mkElement "cable" [("idInSource", field csvLine 0)] None
    (datetime_elements (field csvLine 1)
     ++ [leaf "reference" (field csvLine 2);
         leaf "origin" (field csvLine 3);
         leaf "classification" (field csvLine 4);
         sources_element (field csvLine 5);
         header_element (field csvLine 6);
         content_element (field csvLine 7)]).

Definition cable_lines (csvLine : list string) : list string :=
  datetime_lines (field csvLine 1) ++ header_lines (field csvLine 6)
  ++ content_lines (field csvLine 7).

(** The rows [parse_rows] turns into cables: those before the first row
    that does not hold 8 values. *)
Fixpoint parsed_rows (rows : csvreader) : list (list string) :=
  match rows with
  | [] => []
  | (_, currentLine) :: rest =>
      if Nat.eqb (List.length currentLine) 8 then currentLine :: parsed_rows rest
      else []
  end.

(** The reader's line number at the first row that does not hold 8 values. *)
Fixpoint malformed_row (rows : csvreader) : option nat :=
  match rows with
  | [] => None
  | (line_num, currentLine) :: rest =>
      if Nat.eqb (List.length currentLine) 8 then malformed_row rest
      else Some line_num
  end.

Definition rows_lines (rows : csvreader) : list string :=
  concat (map cable_lines (parsed_rows rows))
  ++ match malformed_row rows with
     | Some line_num => [ERROR_LINE line_num]
     | None => []
     end.

Definition append_all (cables : list Element) (e : Element) : Element :=
  mkElement (tag e) (attrib e) (text e) (children e ++ cables).

(** The state after [parse_rows]. *)
Definition rows_state (rows : csvreader) (st : state) : state :=
  let r := append_all (map cable_element (parsed_rows rows)) (root st) in
  {| root := r;
     xmlString := match parsed_rows rows with
                  | [] => xmlString st
                  | _ :: _ => Some r
                  end;
     stdout := stdout st ++ rows_lines rows |}.

(** ** Observations on the output, used to state the properties *)

(** An element has a child with tag [t]. *)
Definition recorded (t : string) (e : Element) : bool :=
  existsb (fun c => String.eqb (tag c) t) (children e).

(** The children of an element other than those with tag [t]. *)
Definition without (t : string) (e : Element) : list Element :=
  filter (fun c => negb (String.eqb (tag c) t)) (children e).

(** How many times a line was printed. *)
Definition occurrences (line : string) (lines : list string) : nat :=
  List.length (filter (String.eqb line) lines).

(** Some line of the sequence matches the pattern. *)
Definition found_in (re : regex) (cableLines : list string) : bool :=
  existsb (fun line => negb (is_none (rmatch re line))) cableLines.

(** [l] is [target] with some entries left out. *)
Fixpoint subsequence (l target : list string) : bool :=
  match l, target with
  | [], _ => true
  | _ :: _, [] => false
  | a :: l', b :: target' =>
      if String.eqb a b then subsequence l' target' else subsequence l target'
  end.

Definition is_error (line : string) : bool := prefix "ERROR" line.

Definition errors (lines : list string) : nat := List.length (filter is_error lines).

(** The row with value [i] replaced. *)
Fixpoint set_field (i : nat) (v : string) (csvLine : list string) : list string :=
  match csvLine, i with
  | [], _ => []
  | _ :: rest, 0 => v :: rest
  | a :: rest, S i' => a :: set_field i' v rest
  end.

(** The content extractor on a cable that has no children yet. *)
Definition fresh_cable : state :=
  {| root := new "cable" []; xmlString := None; stdout := [] |}.

Definition extract_content (contentText : string) : result unit * state :=
  parseCableMessageText [] contentText fresh_cable.

Definition last_child (e : Element) : Element := last (children e) (new "" []).

End Shape.

(** ** Sample records *)

Module Samples.
Import PyStr Re PyTime Patterns ET CsvToXML Shape.

Definition sample_header : string :=
  "R 220927Z AUG 72" ++ String LF "FM AMEMBASSY TEHRAN"
  ++ String LF "TO SECSTATE WASHDC 9461" ++ String LF "INFO AMEMBASSY MOSCOW".

Definition sample_content : string :=
  "E.O. 11652: N/A" ++ String LF "TAGS: PFOR, IR" ++ String LF "SUBJECT: Hello"
  ++ String LF "REF: STATE 1".

Definition sample_record : list string :=
  ["1"; "12/28/1966 18:48"; "66BUENOSAIRES2481"; "Embassy Buenos Aires";
   "UNCLASSIFIED"; "A|B|C"; sample_header; sample_content].

Definition unparsed_time_record : list string := set_field 1 "not-a-date" sample_record.

(** A row of 7 values: the sample record without its content. *)
Definition short_record : list string := removelast sample_record.

(** Four rows of 8 values, then one of 7. *)
Definition five_rows : csvreader :=
  [(1, sample_record); (2, sample_record); (3, sample_record); (4, sample_record);
   (5, short_record)].

(** The content blob with the lines SUBJECT: Hello and TAGS: a, b. *)
Definition subject_first_text : string := "SUBJECT: Hello" ++ String LF "TAGS: a, b".

(** A content blob with none of the four fields. *)
Definition plain_text : string := "NOTHING TO REPORT".

(** A header without its TO line. *)
Definition header_without_to : string :=
  "R 220927Z AUG 72" ++ String LF "FM AMEMBASSY TEHRAN" ++ String LF "INFO AMEMBASSY MOSCOW".

Definition record_without_to : list string := set_field 6 header_without_to sample_record.

(** A header that matches with blanks around the month token and an empty
    line after the FM section. *)
Definition loose_header : string :=
  "R 220927Z  AU 72" ++ String LF "FM A" ++ String LF (String LF "TO B")
  ++ String LF "INFO C".

Definition loose_record : list string := set_field 6 loose_header sample_record.

(** The header block in the words of the specification: ref, month and
    year trimmed; each list the captured text split on line breaks, each
    piece trimmed; a list whose group did not match present with count 0. *)
Definition stated_list (which : string) (g : option string) : Element :=
  let entries := match g with
                 | Some v => map strip (split LF v)
                 | None => []
                 end in
  mkElement which [("count", str (List.length entries))] None
    (map (leaf "institution") entries).

Definition stated_header (m : captures) : Element :=
  mkElement "header" [] None
    [leaf "ref" (strip (captured m 1));
     leaf "month" (strip (captured m 2));
     leaf "year" (strip (captured m 3));
     stated_list "from" (group m 4);
     stated_list "to" (group m 5);
     stated_list "info" (group m 6)].

End Samples.

(** ** Observations on whole trees and on texts *)

Module Tree.
Import PyStr ET.

(** [P] holds of the element and of every element below it. *)
Fixpoint every (P : Element -> bool) (e : Element) : bool :=
  match e with
  | mkElement _ _ _ cs => P e && forallb (every P) cs
  end.

(** [e.get(k)] on the attributes of an element. *)
Fixpoint attribute (k : string) (a : list (string * string)) : option string :=
  match a with
  | [] => None
  | (k', v) :: a' => if String.eqb k' k then Some v else attribute k a'
  end.

(** An element that carries a count carries the number of its children. *)
Definition count_agrees (e : Element) : bool :=
  match attribute "count" (attrib e) with
  | Some c => String.eqb c (str (List.length (children e)))
  | None => true
  end.

Fixpoint all_chars (p : ascii -> bool) (s : string) : bool :=
  match s with
  | EmptyString => true
  | String c s' => p c && all_chars p s'
  end.

(** The text of an element is set and satisfies [P]. *)
Definition text_is (P : string -> bool) (e : Element) : bool :=
  match text e with
  | Some t => P t
  | None => false
  end.

(** [P] is asked of the elements with tag [t] only. *)
Definition tagged (t : string) (P : Element -> bool) (e : Element) : bool :=
  if String.eqb (tag e) t then P e else true.

(** Trimming changes nothing. *)
Definition trimmed (s : string) : bool := String.eqb (strip s) s.

(** A non-empty run of word characters. *)
Definition word (s : string) : bool :=
  negb (String.eqb s EmptyString) && all_chars isword s.

Definition free_of (c : ascii) (s : string) : bool := negb (contains c s).

(** A tag element holds a word. *)
Definition tag_is_word : Element -> bool := tagged "tag" (text_is word).

(** A source holds no bar; an institution is trimmed and holds no line
    feed; the E.O. line, the subject and the refs are trimmed. *)
Definition clean_text (e : Element) : bool :=
  tagged "source" (text_is (free_of "|")) e
  && tagged "institution" (text_is (fun t => trimmed t && free_of LF t)) e
  && tagged "eoline" (text_is trimmed) e
  && tagged "subject" (text_is trimmed) e
  && tagged "ref" (text_is trimmed) e.

(** [s.startswith(p)], with what follows the prefix. *)
Fixpoint after_prefix (p s : string) : option string :=
  match p, s with
  | EmptyString, _ => Some s
  | String a p', String b s' => if Ascii.eqb a b then after_prefix p' s' else None
  | String _ _, EmptyString => None
  end.

(** What follows the prefix [p] in [s], when [s] starts with [p] and goes
    on after it. *)
Definition rest_after (p s : string) : option string :=
  match after_prefix p s with
  | Some (String c r) => Some (String c r)
  | _ => None
  end.

Definition is_some {A} (v : option A) : bool :=
  match v with
  | Some _ => true
  | None => false
  end.

(** The line starts with E. and O. with at most one character of white
    space between them, then a blank and at least one more character. *)
Definition is_eo_line (line : string) : bool :=
  match after_prefix "E." line with
  | Some (String c r) =>
      if isspace c then is_some (rest_after "O. " r)
      else is_some (rest_after "O. " (String c r))
  | _ => false
  end.

(** [m.group(1)] for [m = re.match(re, line)], when there is a match. *)
Definition matched (re : Re.regex) (line : string) : option string :=
  match Re.rmatch re line with
  | Some (_, m) => Re.group m 1
  | None => None
  end.

End Tree.

(** ** [writeToFile]

    The file system is a map from paths to contents, together with the
    paths on which [open(path, 'w')] raises [IOError]. Writing to a file
    that has been opened is taken to succeed. *)

Module Writer.
Import PyStr ET CsvToXML.

Record world := {
  document : state;
  files : string -> option string;
  refuses : string -> bool
}.

(** The one exception [writeToFile] does not catch. *)
Inductive escaped := ExpatError.

Definition put (path content : string) (fs : string -> option string)
    : string -> option string :=
  fun p => if String.eqb p path then Some content else fs p.

Definition ERROR_NOT_VALID : string :=
  "ERROR: XML generated not valid. No file genereated. Did you parse a valid CSV file?".

Definition ERROR_WRITE : string := "ERROR: Unable to write xml file.".

Definition printed (line : string) (w : world) : world :=
  {| document := {| root := root (document w); xmlString := xmlString (document w);
                    stdout := stdout (document w) ++ [line] |};
     files := files w; refuses := refuses w |}.

Definition written (path content : string) (w : world) : world :=
  {| document := document w; files := put path content (files w); refuses := refuses w |}.

Section Render.

(** [minidom.parseString(xmlString).toprettyxml()] as a function of the
    tree that [xmlString] serialises; [None] when the parser rejects the
    serialisation. The library is not modelled: the function is a
    parameter. *)
Variable toprettyxml : Element -> option string.

(** [writeToFile(xmlFilePath)]: the result is the exception that escapes,
    if any. [open] comes first and empties the file; [self.xmlString] is
    read inside the [with] block. *)
Definition writeToFile (xmlFilePath : string) (w : world) : option escaped * world :=
  if refuses w xmlFilePath then
    (* except IOError *)
    (None, printed ERROR_WRITE w)
  else
    let opened := written xmlFilePath EmptyString w in
    match xmlString (document opened) with
    | None =>
        (* except AttributeError *)
        (None, printed ERROR_NOT_VALID opened)
    | Some tree =>
        match toprettyxml tree with
        | Some pretty => (None, written xmlFilePath pretty opened)
        | None => (Some ExpatError, opened)
        end
    end.

End Render.

(** The saved serialisation, once there is one, is that of the tree as it
    stands; before that the tree has no cable. *)
Definition in_step (st : state) : Prop :=
  xmlString st = Some (root st)
  \/ (xmlString st = None /\ children (root st) = []).

(** [parseCSVFile] on the document of a world. *)
Definition parsed (filePath : string) (reader : csvreader) (w : world) : world :=
  {| document := snd (parseCSVFile filePath reader (document w));
     files := files w; refuses := refuses w |}.

End Writer.

(** ** [csvMonitor.py]: the log and the validation of a file

    What the environment decides is part of the state: the text
    [time.strftime] returns and whether the log file can be appended to. *)

Module CsvMonitor.
Import PyStr CsvToXML.

Record monitor := {
  logFilePath : option string;   (* set by [initialise] *)
  now : string;                  (* [time.strftime("%a, %d %b %Y %H:%M:%S")] *)
  log_writable : bool;
  logFile : list string;         (* what has been written to the log file *)
  console : list string          (* what has been printed *)
}.

Definition Mon (A : Type) : Type := monitor -> result A * monitor.

Definition logged (entry : string) (w : monitor) : monitor :=
  {| logFilePath := logFilePath w; now := now w; log_writable := log_writable w;
     logFile := logFile w ++ [entry]; console := console w |}.

Definition shown (line : string) (w : monitor) : monitor :=
  {| logFilePath := logFilePath w; now := now w; log_writable := log_writable w;
     logFile := logFile w; console := console w ++ [line] |}.

Definition ERROR_LOG (path : string) : string :=
  "ERROR: Unable to write to log file at " ++ String DQUOTE path ++ String DQUOTE "".

(** [writeToLog(text)]. Without a log path the [open] raises
    [AttributeError], the bare [except] catches it, and the handler raises
    it again while it builds its own message. *)
Definition writeToLog (text : string) : Mon unit :=
  fun w =>
    let timestampedMessage := (now w ++ ", " ++ text ++ String LF "")%string in
    match logFilePath w with
    | None => (Raise AttributeError, w)
    | Some path =>
        let w1 := if log_writable w then logged timestampedMessage w
                  else shown (ERROR_LOG path) w in
        (Return tt, shown timestampedMessage w1)
    end.

Definition ERROR_LENGTH (line_num : nat) (fullFilename : string)
    (currentLineLength firstLineLength : nat) : string :=
  "ERROR: Record at line " ++ str line_num ++ " of " ++ String DQUOTE fullFilename
  ++ String DQUOTE " was of length " ++ str currentLineLength
  ++ ". Expected previous lines' length of " ++ str firstLineLength ++ " items.".

(** The loop [for currentLine in csvreader] of [parseCSV]. *)
Fixpoint check_rows (fullFilename : string) (firstLineLength : nat) (rows : csvreader)
    : Mon bool :=
  match rows with
  | [] => fun w => (Return true, w)
  | (line_num, currentLine) :: rest =>
      let currentLineLength := List.length currentLine in
      if negb (Nat.eqb currentLineLength firstLineLength) then
        fun w =>
          match writeToLog (ERROR_LENGTH line_num fullFilename currentLineLength
                              firstLineLength) w with
          | (Return _, w') => (Return false, w')
          | (Raise e, w') => (Raise e, w')
          end
      else check_rows fullFilename firstLineLength rest
  end.

(** [parseCSV(fullFilename)], given the rows the reader yields. *)
Definition parseCSV (fullFilename : string) (reader : csvreader) : Mon bool :=
  match reader with
  | [] =>
      fun w =>
        match writeToLog (ERROR_EMPTY fullFilename) w with
        | (Return _, w') => (Return false, w')
        | (Raise e, w') => (Raise e, w')
        end
  | (_, firstLine) :: rest => check_rows fullFilename (List.length firstLine) rest
  end.

End CsvMonitor.

Import Samples.

(** ** The library model on the texts quoted in the source *)

Import PyStr Re PyTime Patterns ET CsvToXML Shape.

Example strptime_sample :
  strptime "12/28/1966 18:48"
  = Some {| tm_year := 1966; tm_mon := 12; tm_mday := 28; tm_hour := 18; tm_min := 48 |}.
Proof. reflexivity. Qed.

Example strptime_single_digits :
  strptime "1/2/1966 3:4"
  = Some {| tm_year := 1966; tm_mon := 1; tm_mday := 2; tm_hour := 3; tm_min := 4 |}.
Proof. reflexivity. Qed.

Example strptime_no_such_day : strptime "02/30/1966 10:00" = None.
Proof. reflexivity. Qed.

Example strptime_trailing_text : strptime "12/28/1966 18:48 " = None.
Proof. reflexivity. Qed.

Example strptime_hour_24 : strptime "12/28/1966 24:00" = None.
Proof. reflexivity. Qed.

Example split_sources : split "|" "72MOSCOW1603|72TEHRAN1091|72TEHRAN263"
                        = ["72MOSCOW1603"; "72TEHRAN1091"; "72TEHRAN263"].
Proof. reflexivity. Qed.

Example split_empty : split "|" "" = [""].
Proof. reflexivity. Qed.

Example strip_blanks : strip (String TAB " SECSTATE WASHDC " ++ String CR (String LF ""))
                       = "SECSTATE WASHDC".
Proof. reflexivity. Qed.

Example repr_line_feed : repr ("a" ++ String LF "b") = "'a\nb'".
Proof. reflexivity. Qed.

Example header_groups :
  option_map (fun r => map (group (snd r)) [1; 2; 3; 4; 5; 6]) (rmatch header_re sample_header)
  = Some [Some "R 220927Z AUG 72"; Some "AUG"; Some "72"; Some "AMEMBASSY TEHRAN";
          Some "SECSTATE WASHDC 9461"; Some "AMEMBASSY MOSCOW"].
Proof. vm_compute. reflexivity. Qed.

Example header_trailing_section :
  option_map (fun r => map (group (snd r)) [1; 2; 3; 6])
    (rmatch header_re ("R 220927Z AUG 72 XYZ1" ++ String LF "FM A" ++ String LF "TO B"))
  = Some [Some "R 220927Z AUG 72 XYZ1"; Some "AUG"; Some "72"; None].
Proof. vm_compute. reflexivity. Qed.

Example eo_line_both_spellings :
  option_map (fun r => group (snd r) 1) (rmatch eo_re "E.O. 11652: N/A") = Some (Some "E.O. 11652: N/A")
  /\ option_map (fun r => group (snd r) 1) (rmatch eo_re "E. O. 11652") = Some (Some "E. O. 11652")
  /\ rmatch eo_re "EO 11652" = None.
Proof. repeat split; vm_compute; reflexivity. Qed.

Example subject_both_spellings :
  option_map (fun r => group (snd r) 1) (rmatch subject_re "SUBJECT: Hello") = Some (Some "Hello")
  /\ option_map (fun r => group (snd r) 1) (rmatch subject_re "SUBJ: Hello") = Some (Some "Hello")
  /\ rmatch subject_re "SUBJECT:" = None.
Proof. repeat split; vm_compute; reflexivity. Qed.

Example tags_by_comma : Re.findall tag_re "PFOR, PREL, IR" = ["PFOR"; "PREL"; "IR"].
Proof. vm_compute. reflexivity. Qed.

Example tags_by_blank : Re.findall tag_re "PFOR PREL" = ["PREL"].
Proof. vm_compute. reflexivity. Qed.

(** The exception sites are live: without the test on the number of values,
    a short row makes [parseCSVLine] raise. *)
Example short_row_raises : fst (parseCSVLine short_record init) = Raise IndexError.
Proof. vm_compute. reflexivity. Qed.

Example no_row_raises : fst (parseCSVLine [] init) = Raise IndexError.
Proof. reflexivity. Qed.

(** The whole sample record. *)
Example sample_cable :
  parseCSVFile "cables_tiny.csv" [(1, ["id"]); (2, sample_record)] init
  = (Return None,
     let r :=
       mkElement "root" [] None
         [mkElement "cable" [("idInSource", "1")] None
            [mkElement "year" [] (Some "1966") [];
             mkElement "month" [] (Some "12") [];
             mkElement "day" [] (Some "28") [];
             mkElement "hour" [] (Some "18") [];
             mkElement "minute" [] (Some "48") [];
             mkElement "reference" [] (Some "66BUENOSAIRES2481") [];
             mkElement "origin" [] (Some "Embassy Buenos Aires") [];
             mkElement "classification" [] (Some "UNCLASSIFIED") [];
             mkElement "sources" [("count", "3")] None
               [mkElement "source" [] (Some "A") [];
                mkElement "source" [] (Some "B") [];
                mkElement "source" [] (Some "C") []];
             mkElement "header" [] None
               [mkElement "ref" [] (Some "R 220927Z AUG 72") [];
                mkElement "month" [] (Some "AUG") [];
                mkElement "year" [] (Some "72") [];
                mkElement "from" [("count", "1")] None
                  [mkElement "institution" [] (Some "AMEMBASSY TEHRAN") []];
                mkElement "to" [("count", "1")] None
                  [mkElement "institution" [] (Some "SECSTATE WASHDC 9461") []];
                mkElement "info" [("count", "1")] None
                  [mkElement "institution" [] (Some "AMEMBASSY MOSCOW") []]];
             mkElement "content" [] None
               [mkElement "eoline" [] (Some "E.O. 11652: N/A") [];
                mkElement "tags" [("count", "2")] None
                  [mkElement "tag" [] (Some "PFOR") [];
                   mkElement "tag" [] (Some "IR") []];
                mkElement "subject" [] (Some "Hello") [];
                mkElement "ref" [] (Some "STATE 1") [];
                mkElement "fullText" []
                  (Some "'E.O. 11652: N/A\nTAGS: PFOR, IR\nSUBJECT: Hello\nREF: STATE 1'") []]]] in
     {| root := r; xmlString := Some r; stdout := [] |}).
Proof. vm_compute. reflexivity. Qed.
(** ** Facts about handles into a tree *)



Lemma alter_nth_ext (i : nat) (f g : Element -> Element) (l : list Element) :
  (forall x, nth_error l i = Some x -> f x = g x) ->
  alter_nth i f l = alter_nth i g l.
Proof.
  revert i; induction l as [|x l IH]; intros [|i] H; simpl; try reflexivity.
  - f_equal. apply H. reflexivity.
  - f_equal. apply IH. intros y Hy. apply H. exact Hy.
Qed.

Lemma alter_nth_twice (i : nat) (f g : Element -> Element) (l : list Element) :
  alter_nth i g (alter_nth i f l) = alter_nth i (fun x => g (f x)) l.
Proof.
  revert i; induction l as [|x l IH]; intros [|i]; simpl; try reflexivity.
  f_equal. apply IH.
Qed.

Lemma nth_error_alter_nth (i : nat) (f : Element -> Element) (l : list Element) :
  nth_error (alter_nth i f l) i = option_map f (nth_error l i).
Proof.
  revert i; induction l as [|x l IH]; intros [|i]; simpl; try reflexivity.
  apply IH.
Qed.

Lemma alter_nth_last (f : Element -> Element) (l : list Element) (x : Element) :
  alter_nth (List.length l) f (l ++ [x]) = l ++ [f x].
Proof. induction l as [|y l IH]; simpl; [reflexivity | now rewrite IH]. Qed.

Lemma nth_error_last (l : list Element) (x : Element) :
  nth_error (l ++ [x]) (List.length l) = Some x.
Proof. induction l as [|y l IH]; simpl; [reflexivity | exact IH]. Qed.

Lemma element_eta (e : Element) :
  mkElement (tag e) (attrib e) (text e) (children e) = e.
Proof. destruct e; reflexivity. Qed.

(** Altering twice at one handle is altering once with the composition. *)
Lemma alter_twice (p : ref) (f g : Element -> Element) (e : Element) :
  alter p g (alter p f e) = alter p (fun x => g (f x)) e.
Proof.
  revert e; induction p as [|i p IH]; intros e; simpl; [reflexivity|].
  destruct e as [t a x cs]; simpl. unfold with_children; simpl. f_equal.
  rewrite alter_nth_twice. apply alter_nth_ext. intros y _. apply IH.
Qed.

(** Only the element the handle designates matters to [alter]. *)
Lemma alter_found (p : ref) (f g : Element -> Element) (r e : Element) :
  find p r = Some e -> f e = g e -> alter p f r = alter p g r.
Proof.
  revert r; induction p as [|i p IH]; intros r Hf Hfg; simpl in *.
  - now injection Hf as ->.
  - f_equal. apply alter_nth_ext. intros y Hy. rewrite Hy in Hf. now apply IH.
Qed.

Lemma alter_app (p q : ref) (f : Element -> Element) (e : Element) :
  alter (p ++ q) f e = alter p (alter q f) e.
Proof.
  revert e; induction p as [|i p IH]; intros e; simpl; [reflexivity|].
  f_equal. apply alter_nth_ext. intros y _. apply IH.
Qed.

Lemma find_app (p q : ref) (r : Element) :
  find (p ++ q) r = match find p r with Some e => find q e | None => None end.
Proof.
  revert r; induction p as [|i p IH]; intros r; simpl; [reflexivity|].
  destruct (nth_error (children r) i); [apply IH | reflexivity].
Qed.

Lemma find_alter (p : ref) (f : Element -> Element) (r e : Element) :
  find p r = Some e -> find p (alter p f r) = Some (f e).
Proof.
  revert r; induction p as [|i p IH]; intros r Hf; simpl in *.
  - now injection Hf as ->.
  - destruct r as [t a x cs]; simpl in *. rewrite nth_error_alter_nth.
    destruct (nth_error cs i) as [c|]; [simpl; now apply IH | discriminate].
Qed.

(** The element just appended is the last child. *)
Lemma find_appended (c e : Element) :
  find [List.length (children e)] (append c e) = Some c.
Proof. destruct e as [t a x cs]; simpl. now rewrite nth_error_last. Qed.

Lemma alter_appended (f : Element -> Element) (c e : Element) :
  alter [List.length (children e)] f (append c e) = append (f c) e.
Proof.
  destruct e as [t a x cs]; simpl. unfold with_children, append; simpl.
  now rewrite alter_nth_last.
Qed.

(** Work done on a freshly appended child can be done before appending. *)
Lemma alter_under (p : ref) (f : Element -> Element) (c r e : Element) :
  find p r = Some e ->
  alter (p ++ [List.length (children e)]) f (alter p (append c) r)
  = alter p (append (f c)) r.
Proof.
  intros Hf. rewrite alter_app, alter_twice.
  apply alter_found with (e := e); [assumption | apply alter_appended].
Qed.

Lemma find_under (p : ref) (c r e : Element) :
  find p r = Some e ->
  find (p ++ [List.length (children e)]) (alter p (append c) r) = Some c.
Proof.
  intros Hf. rewrite find_app, (find_alter _ _ _ _ Hf). apply find_appended.
Qed.

(** ** How the statements run *)

Lemma alter_ext (p : ref) (f g : Element -> Element) (e : Element) :
  (forall x, f x = g x) -> alter p f e = alter p g e.
Proof.
  intros H; revert e; induction p as [|i p IH]; intros e; simpl; [apply H|].
  f_equal. apply alter_nth_ext. intros y _. apply IH.
Qed.

Lemma alter_nth_id (i : nat) (f : Element -> Element) (l : list Element) :
  (forall x, f x = x) -> alter_nth i f l = l.
Proof.
  intros H; revert i; induction l as [|x l IH]; intros [|i]; simpl; try reflexivity.
  - now rewrite H.
  - now rewrite IH.
Qed.

Lemma alter_id (p : ref) (f : Element -> Element) (e : Element) :
  (forall x, f x = x) -> alter p f e = e.
Proof.
  intros H; revert e; induction p as [|i p IH]; intros e; simpl; [apply H|].
  rewrite (alter_nth_ext i (alter p f) (fun x => x)) by (intros; apply IH).
  rewrite alter_nth_id by reflexivity. destruct e; reflexivity.
Qed.

Lemma split_not_nil (sep : ascii) (s : string) : split sep s <> [].
Proof.
  destruct s as [|c s]; simpl; [discriminate|].
  destruct (Ascii.eqb c sep); [discriminate|].
  destruct (split sep s); discriminate.
Qed.

Lemma split_length_pos (sep : ascii) (s : string) :
  Nat.ltb 0 (List.length (split sep s)) = true.
Proof.
  pose proof (split_not_nil sep s). destruct (split sep s); [congruence | reflexivity].
Qed.

Section Run.
Variables (x : option Element) (o : list string).

Lemma SubElement_run (p : ref) (t : string) (a : list (string * string)) (r e : Element) :
  find p r = Some e ->
  SubElement p t a {| root := r; xmlString := x; stdout := o |}
  = (Return (p ++ [List.length (children e)]),
     {| root := alter p (append (new t a)) r; xmlString := x; stdout := o |}).
Proof. intros H. unfold SubElement; simpl. now rewrite H. Qed.

Lemma SubElementText_run (p : ref) (t : string) (v : option string) (r e : Element) :
  find p r = Some e ->
  SubElementText p t v {| root := r; xmlString := x; stdout := o |}
  = (Return tt,
     {| root := alter p (append (mkElement t [] v [])) r; xmlString := x; stdout := o |}).
Proof.
  intros H. unfold SubElementText, bind. rewrite (SubElement_run _ _ _ _ _ H).
  unfold set_text; simpl. now rewrite (alter_under _ _ _ _ _ H).
Qed.

Lemma for_each_run {A} (l : list A) (g : A -> Element) (p : ref) (t : string)
    (v : A -> option string) (r e : Element) :
  find p r = Some e ->
  (forall a, g a = mkElement t [] (v a) []) ->
  for_each l (fun a => SubElementText p t (v a)) {| root := r; xmlString := x; stdout := o |}
  = (Return tt,
     {| root := alter p (append_all (map g l)) r; xmlString := x; stdout := o |}).
Proof.
  intros Hf Hg. revert r e Hf. induction l as [|a l IH]; intros r e Hf; simpl.
  - unfold ret. rewrite alter_id; [reflexivity|].
    intros [t' a' x' cs]; unfold append_all; simpl. now rewrite app_nil_r.
  - unfold bind. rewrite (SubElementText_run _ _ _ _ _ Hf).
    rewrite (IH _ _ (find_alter _ _ _ _ Hf)). rewrite alter_twice.
    do 2 f_equal. apply alter_ext. intros [t' a' x' cs]; unfold append_all, append; simpl.
    now rewrite Hg, <- app_assoc.
Qed.

(** A new element and its children, built in place, are one appended element. *)
Lemma build_list_run {A} (l : list A) (g : A -> Element) (p : ref) (t t' : string)
    (a : list (string * string)) (v : A -> option string) (r e : Element) :
  find p r = Some e ->
  (forall a, g a = mkElement t' [] (v a) []) ->
  (node <- SubElement p t a ;; for_each l (fun a => SubElementText node t' (v a)))%py
    {| root := r; xmlString := x; stdout := o |}
  = (Return tt,
     {| root := alter p (append (mkElement t a None (map g l))) r;
        xmlString := x; stdout := o |}).
Proof.
  intros Hf Hg. unfold bind. rewrite (SubElement_run _ _ _ _ _ Hf).
  rewrite (for_each_run l g _ _ _ _ _ (find_under _ _ _ _ Hf) Hg).
  now rewrite (alter_under _ _ _ _ _ Hf).
Qed.

Lemma header_list_run (header : ref) (which : string) (g : option string) (r e : Element) :
  find header r = Some e ->
  header_list header which g {| root := r; xmlString := x; stdout := o |}
  = (Return tt,
     {| root := alter header (append (institution_list which g)) r;
        xmlString := x; stdout := o |}).
Proof.
  intros Hf. unfold header_list, institution_list, institutions.
  destruct g as [v|]; simpl is_none; cbv iota.
  - unfold bind at 1 2. unfold group_strip, ret at 1 2. cbv beta iota.
    rewrite split_length_pos.
    change (local (Some (split LF (strip v)))) with (ret (A := list string) (split LF (strip v))).
    unfold bind at 2. unfold ret at 1. cbv beta iota.
    apply (build_list_run (split LF (strip v)) (fun c => leaf "institution" (strip c))
             header which "institution" _ (fun c => Some (strip c)) r e Hf).
    reflexivity.
  - unfold bind at 1. unfold ret at 1. cbv beta iota. simpl Nat.ltb. cbv iota.
    unfold bind. rewrite (SubElement_run _ _ _ _ _ Hf). reflexivity.
Qed.

End Run.

(** ** Groups that a match always sets *)

Lemma group_cons_some (k n : nat) (v : string) (caps : captures) :
  Nat.eqb k n = true \/ group caps n <> None -> group ((k, v) :: caps) n <> None.
Proof.
  intros H; simpl. destruct (Nat.eqb k n); [discriminate|].
  destruct H as [H|H]; [discriminate | exact H].
Qed.

Lemma run_binds (r : regex) :
  forall pos s caps k res,
    run r pos s caps k = Some res ->
    exists pos' s' caps',
      k pos' s' caps' = Some res /\
      forall n, binds r n = true \/ group caps n <> None -> group caps' n <> None.
Proof.
  induction r as [ |c|p| | |r1 IH1 r2 IH2|r1 IH1 r2 IH2|r1 IH1|p|p|g r1 IH1];
    intros pos s caps k res H; simpl in H.
  - exists pos, s, caps. split; [exact H|]. intros n [Hn|Hn]; [discriminate | exact Hn].
  - destruct s as [|d s]; [discriminate|]. destruct (Ascii.eqb c d); [|discriminate].
    exists (S pos), s, caps. split; [exact H|]. intros n [Hn|Hn]; [discriminate | exact Hn].
  - destruct s as [|d s]; [discriminate|]. destruct (p d); [|discriminate].
    exists (S pos), s, caps. split; [exact H|]. intros n [Hn|Hn]; [discriminate | exact Hn].
  - destruct (Nat.eqb pos 0); [|discriminate].
    exists pos, s, caps. split; [exact H|]. intros n [Hn|Hn]; [discriminate | exact Hn].
  - destruct (at_end s); [|discriminate].
    exists pos, s, caps. split; [exact H|]. intros n [Hn|Hn]; [discriminate | exact Hn].
  - apply IH1 in H. destruct H as (pos1 & s1 & caps1 & H & B1).
    apply IH2 in H. destruct H as (pos2 & s2 & caps2 & H & B2).
    exists pos2, s2, caps2. split; [exact H|]. intros n Hn. apply B2.
    simpl in Hn. destruct (binds r2 n); [now left|]. right. apply B1.
    rewrite orb_false_r in Hn. exact Hn.
  - destruct (run r1 pos s caps k) as [res1|] eqn:E1.
    + injection H as ->. apply IH1 in E1. destruct E1 as (pos1 & s1 & caps1 & H & B1).
      exists pos1, s1, caps1. split; [exact H|]. intros n Hn. apply B1.
      simpl in Hn. destruct Hn as [Hn|Hn]; [left | now right].
      now apply andb_true_iff in Hn.
    + apply IH2 in H. destruct H as (pos2 & s2 & caps2 & H & B2).
      exists pos2, s2, caps2. split; [exact H|]. intros n Hn. apply B2.
      simpl in Hn. destruct Hn as [Hn|Hn]; [left | now right].
      now apply andb_true_iff in Hn.
  - destruct (run r1 pos s caps k) as [res1|] eqn:E1.
    + injection H as ->. apply IH1 in E1. destruct E1 as (pos1 & s1 & caps1 & H & B1).
      exists pos1, s1, caps1. split; [exact H|]. intros n [Hn|Hn]; [discriminate|].
      apply B1. now right.
    + exists pos, s, caps. split; [exact H|]. intros n [Hn|Hn]; [discriminate | exact Hn].
  - revert pos H. induction s as [|d s IHs]; intros pos H; [discriminate|].
    destruct (p d); [|discriminate].
    match type of H with
    | match ?more with Some _ => _ | None => _ end = _ => destruct more as [res1|] eqn:E1
    end.
    + injection H as ->. apply IHs in E1. exact E1.
    + exists (S pos), s, caps. split; [exact H|].
      intros n [Hn|Hn]; [discriminate | exact Hn].
  - revert pos H. induction s as [|d s IHs]; intros pos H; [discriminate|].
    destruct (p d); [|discriminate].
    destruct (k (S pos) s caps) as [res1|] eqn:E1.
    + injection H as ->. exists (S pos), s, caps. split; [exact E1|].
      intros n [Hn|Hn]; [discriminate | exact Hn].
    + apply IHs in H. exact H.
  - apply IH1 in H. destruct H as (pos1 & s1 & caps1 & H & B1).
    exists pos1, s1, ((g, substring 0 (pos1 - pos) s) :: caps1). split; [exact H|].
    intros n Hn. apply group_cons_some. simpl in Hn.
    destruct (Nat.eqb g n); [now left|]. right. apply B1. exact Hn.
Qed.

(** Every match of a pattern sets the groups on all its paths. *)
Lemma rmatch_binds (r : regex) (n : nat) (s : string) (e : nat) (m : captures) :
  binds r n = true -> rmatch r s = Some (e, m) -> exists v, group m n = Some v.
Proof.
  intros Hb H. unfold rmatch in H. apply run_binds in H.
  destruct H as (pos' & s' & caps' & H & B). unfold accept in H. injection H as _ <-.
  specialize (B n (or_introl Hb)). destruct (group caps' n) as [v|]; [now exists v | congruence].
Qed.

(** ** The content extractor *)

Lemma for_break_scan (re : regex) (k : string -> M bool) (cursor : list string) (st : state) :
  binds re 1 = true ->
  for_break cursor
    (fun currentLine =>
       match rmatch re currentLine with
       | Some (_, m) => (v <- group_strip (group m 1) ;; k v)%py
       | None => ret false
       end) st
  = match scan re cursor with
    | Some (v, rest) =>
        match k (strip v) st with
        | (Return true, st') => (Return (true, rest), st')
        | (Return false, st') =>
            for_break rest
              (fun currentLine =>
                 match rmatch re currentLine with
                 | Some (_, m) => (v <- group_strip (group m 1) ;; k v)%py
                 | None => ret false
                 end) st'
        | (Raise e, st') => (Raise e, st')
        end
    | None => (Return (false, []), st)
    end.
Proof.
  intros Hb. induction cursor as [|line rest IH]; simpl; [reflexivity|].
  destruct (rmatch re line) as [[e m]|] eqn:E.
  - destruct (rmatch_binds re 1 line e m Hb E) as [v Hv].
    unfold captured. rewrite Hv. unfold bind, group_strip, ret.
    destruct (k (strip v) st) as [[[|]|ex] st']; reflexivity.
  - unfold bind at 1. unfold ret at 1. exact IH.
Qed.

Section Content.
Variables (x : option Element) (o : list string).
Variables (p : ref) (r e : Element).
Hypothesis Hf : find p r = Some e.

Let contentNode : ref := p ++ [List.length (children e)].

Lemma leaf_loop_run (re : regex) (t : string) (c : Element) (cursor : list string) :
  binds re 1 = true ->
  for_break cursor
    (fun currentLine =>
       match rmatch re currentLine with
       | Some (_, m) =>
           (v <- group_strip (group m 1) ;;
            SubElementText contentNode t (Some v) ;;
            ret true)%py
       | None => ret false
       end) {| root := alter p (append c) r; xmlString := x; stdout := o |}
  = match scan re cursor with
    | Some (v, rest) =>
        (Return (true, rest),
         {| root := alter p (append (append (leaf t (strip v)) c)) r;
            xmlString := x; stdout := o |})
    | None =>
        (Return (false, []), {| root := alter p (append c) r; xmlString := x; stdout := o |})
    end.
Proof.
  intros Hb.
  rewrite (for_break_scan re (fun v => (SubElementText contentNode t (Some v) ;; ret true)%py)
             cursor _ Hb).
  destruct (scan re cursor) as [[v rest]|]; [|reflexivity].
  unfold bind. unfold contentNode.
  rewrite (SubElementText_run x o _ t _ _ c (find_under p c r e Hf)).
  rewrite (alter_under p _ c r e Hf). reflexivity.
Qed.

Lemma tags_loop_run (c : Element) (cursor : list string) :
  for_break cursor
    (fun currentLine =>
       match rmatch tags_re currentLine with
       | Some (_, m) =>
           (v <- group_strip (group m 1) ;;
            let tagsList := Re.findall tag_re v in
            tagsNode <- SubElement contentNode "tags"
                          [("count", str (List.length tagsList))] ;;
            for_each tagsList (fun currentTag =>
              SubElementText tagsNode "tag" (Some currentTag)) ;;
            ret true)%py
       | None => ret false
       end) {| root := alter p (append c) r; xmlString := x; stdout := o |}
  = match scan tags_re cursor with
    | Some (v, rest) =>
        (Return (true, rest),
         {| root := alter p (append (append (tags_element v) c)) r;
            xmlString := x; stdout := o |})
    | None =>
        (Return (false, []), {| root := alter p (append c) r; xmlString := x; stdout := o |})
    end.
Proof.
  rewrite (for_break_scan tags_re
             (fun v =>
                (let tagsList := Re.findall tag_re v in
                 tagsNode <- SubElement contentNode "tags"
                               [("count", str (List.length tagsList))] ;;
                 for_each tagsList (fun currentTag =>
                   SubElementText tagsNode "tag" (Some currentTag)) ;;
                 ret true)%py)
             cursor _ eq_refl).
  destruct (scan tags_re cursor) as [[v rest]|]; [|reflexivity].
  cbv zeta. unfold contentNode.
  pose proof (build_list_run x o (Re.findall tag_re (strip v)) (leaf "tag")
                (p ++ [List.length (children e)]) "tags" "tag"
                [("count", str (List.length (Re.findall tag_re (strip v))))]
                (fun t => Some t) _ c (find_under p c r e Hf) (fun _ => eq_refl)) as B.
  unfold bind in B |- *.
  destruct (SubElement (p ++ [List.length (children e)]) "tags" _ _) as [[node|ex] st1].
  - rewrite B. rewrite (alter_under p _ c r e Hf). reflexivity.
  - discriminate B.
Qed.

End Content.

Lemma reset_on_miss_found (cableLines it : list string) (w : string) (st : state) :
  reset_on_miss true cableLines it w st = (Return it, st).
Proof. reflexivity. Qed.

Lemma reset_on_miss_missed (cableLines it : list string) (w : string)
    (r : Element) (x : option Element) (o : list string) :
  reset_on_miss false cableLines it w {| root := r; xmlString := x; stdout := o |}
  = (Return cableLines, {| root := r; xmlString := x; stdout := o ++ [w] |}).
Proof. reflexivity. Qed.

(** [parseCableMessageText] appends one content element to the cable and
    prints the warnings of the fields it missed; it never raises. *)
Lemma parseCableMessageText_run (p : ref) (contentText : string)
    (r e : Element) (x : option Element) (o : list string) :
  find p r = Some e ->
  parseCableMessageText p contentText {| root := r; xmlString := x; stdout := o |}
  = (Return tt,
     {| root := alter p (append (content_element contentText)) r;
        xmlString := x;
        stdout := o ++ content_lines contentText |}).
Proof.
  intros Hf. unfold parseCableMessageText, content_element, content_lines, content_fields, extract.
  unfold bind at 1. rewrite (SubElement_run x o p _ _ r e Hf). cbv beta iota zeta.
  set (cableLines := split LF contentText).
  unfold bind at 1.
  rewrite (leaf_loop_run x o p r e Hf eo_re "eoline" _ cableLines eq_refl).
  destruct (scan eo_re cableLines) as [[v1 it1]|];
    cbv beta iota; unfold bind at 1;
    [rewrite reset_on_miss_found | rewrite reset_on_miss_missed];
    cbv beta iota; unfold bind at 1;
    rewrite (tags_loop_run _ _ p r e Hf);
    match goal with
    | |- context [scan tags_re ?it] => destruct (scan tags_re it) as [[v2 it2]|]
    end;
    cbv beta iota; unfold bind at 1;
    [rewrite reset_on_miss_found | rewrite reset_on_miss_missed
    |rewrite reset_on_miss_found | rewrite reset_on_miss_missed];
    cbv beta iota; unfold bind at 1;
    rewrite (leaf_loop_run _ _ p r e Hf subject_re "subject" _ _ eq_refl);
    match goal with
    | |- context [scan subject_re ?it] => destruct (scan subject_re it) as [[v3 it3]|]
    end;
    cbv beta iota; unfold bind at 1;
    try rewrite reset_on_miss_found; try rewrite reset_on_miss_missed;
    cbv beta iota; unfold bind at 1;
    rewrite (leaf_loop_run _ _ p r e Hf ref_re "ref" _ _ eq_refl);
    match goal with
    | |- context [scan ref_re ?it] => destruct (scan ref_re it) as [[v4 it4]|]
    end;
    cbv beta iota;
    rewrite (SubElementText_run _ _ _ _ _ _ _ (find_under p _ r e Hf));
    rewrite (alter_under p _ _ r e Hf);
    cbn [fst snd app]; rewrite <- ?app_assoc, ?app_nil_r; reflexivity.
Qed.

(** ** One record *)

Lemma getitem_run (l : list string) (i : nat) (v : string) (st : state) :
  nth_error l i = Some v -> getitem l i st = (Return v, st).
Proof. intros H. unfold getitem. now rewrite H. Qed.

Section Cable.
Variables (x : option Element) (o : list string) (r : Element).

Let thisCable : ref := [] ++ [List.length (children r)].

Lemma cable_find (c : Element) : find thisCable (append c r) = Some c.
Proof. apply find_appended. Qed.

Lemma cable_alter (f : Element -> Element) (c : Element) :
  alter thisCable f (append c r) = append (f c) r.
Proof. apply alter_appended. Qed.

Lemma child_find (node c : Element) :
  find (thisCable ++ [List.length (children c)]) (append (append node c) r) = Some node.
Proof. rewrite find_app, cable_find. apply find_appended. Qed.

Lemma child_alter (f : Element -> Element) (node c : Element) :
  alter (thisCable ++ [List.length (children c)]) f (append (append node c) r)
  = append (append (f node) c) r.
Proof. rewrite alter_app, cable_alter. now rewrite alter_appended. Qed.

Lemma cable_leaf_run (t : string) (v : option string) (c : Element) :
  SubElementText thisCable t v {| root := append c r; xmlString := x; stdout := o |}
  = (Return tt,
     {| root := append (append (mkElement t [] v []) c) r; xmlString := x; stdout := o |}).
Proof. rewrite (SubElementText_run x o _ t v _ c (cable_find c)). now rewrite cable_alter. Qed.

Lemma cable_sub_run (t : string) (a : list (string * string)) (c : Element) :
  SubElement thisCable t a {| root := append c r; xmlString := x; stdout := o |}
  = (Return (thisCable ++ [List.length (children c)]),
     {| root := append (append (new t a) c) r; xmlString := x; stdout := o |}).
Proof. rewrite (SubElement_run x o _ t a _ c (cable_find c)). now rewrite cable_alter. Qed.

Lemma child_leaf_run (t : string) (v : option string) (node c : Element) :
  SubElementText (thisCable ++ [List.length (children c)]) t v
    {| root := append (append node c) r; xmlString := x; stdout := o |}
  = (Return tt,
     {| root := append (append (append (mkElement t [] v []) node) c) r;
        xmlString := x; stdout := o |}).
Proof.
  rewrite (SubElementText_run x o _ t v _ node (child_find node c)).
  now rewrite child_alter.
Qed.

Lemma child_list_run (which : string) (g : option string) (node c : Element) :
  header_list (thisCable ++ [List.length (children c)]) which g
    {| root := append (append node c) r; xmlString := x; stdout := o |}
  = (Return tt,
     {| root := append (append (append (institution_list which g) node) c) r;
        xmlString := x; stdout := o |}).
Proof.
  rewrite (header_list_run x o _ which g _ node (child_find node c)).
  now rewrite child_alter.
Qed.

Lemma child_for_each_run (l : list string) (t : string) (node c : Element) :
  for_each l (fun v => SubElementText (thisCable ++ [List.length (children c)]) t (Some v))
    {| root := append (append node c) r; xmlString := x; stdout := o |}
  = (Return tt,
     {| root := append (append (append_all (map (leaf t) l) node) c) r;
        xmlString := x; stdout := o |}).
Proof.
  rewrite (for_each_run x o l (leaf t) _ t (fun v => Some v) _ node
             (child_find node c) (fun _ => eq_refl)).
  now rewrite child_alter.
Qed.

Lemma cable_content_run (contentText : string) (c : Element) :
  parseCableMessageText thisCable contentText
    {| root := append c r; xmlString := x; stdout := o |}
  = (Return tt,
     {| root := append (append (content_element contentText) c) r;
        xmlString := x; stdout := o ++ content_lines contentText |}).
Proof.
  rewrite (parseCableMessageText_run _ contentText _ c x o (cable_find c)).
  now rewrite cable_alter.
Qed.

End Cable.

Lemma print_run (line : string) (r : Element) (x : option Element) (o : list string) :
  print line {| root := r; xmlString := x; stdout := o |}
  = (Return tt, {| root := r; xmlString := x; stdout := o ++ [line] |}).
Proof. reflexivity. Qed.

Ltac next_statement := unfold bind at 1.

Ltac read_item :=
  match goal with
  | |- context [getitem ?l ?i ?st] => rewrite (getitem_run l i _ st eq_refl)
  end.

(** [parseCSVLine] on a row of 8 values appends one cable, prints the
    warnings of the row and returns. *)
Lemma parseCSVLine_run (csvLine : list string) (r : Element)
    (x : option Element) (o : list string) :
  List.length csvLine = 8 ->
  parseCSVLine csvLine {| root := r; xmlString := x; stdout := o |}
  = (Return tt,
     {| root := append (cable_element csvLine) r;
        xmlString := Some (append (cable_element csvLine) r);
        stdout := o ++ cable_lines csvLine |}).
Proof.
  intros Hlen.
  destruct csvLine as [|f0 [|f1 [|f2 [|f3 [|f4 [|f5 [|f6 [|f7 [|]]]]]]]]]; try discriminate Hlen.
  clear Hlen. unfold parseCSVLine, cable_element, cable_lines, field.
  cbn [nth].
  next_statement. read_item. cbv beta iota.
  next_statement. rewrite (SubElement_run x o [] _ _ r r eq_refl). cbv beta iota.
  cbn [alter].
  (* Date & Time *)
  next_statement. unfold try_except.
  next_statement. read_item. cbv beta iota.
  next_statement. unfold time_strptime, datetime_elements, datetime_lines.
  destruct (strptime f1) as [t|];
    [ unfold ret at 1; cbv beta iota;
      next_statement; rewrite cable_leaf_run; cbv beta iota;
      next_statement; rewrite cable_leaf_run; cbv beta iota;
      next_statement; rewrite cable_leaf_run; cbv beta iota;
      next_statement; rewrite cable_leaf_run; cbv beta iota;
      rewrite cable_leaf_run; cbv beta iota
    | unfold raise at 1; cbv beta iota; cbn [exn_eqb]; cbv iota;
      rewrite print_run; cbv beta iota ].
  (* Reference, origin, classification *)
  all: next_statement; read_item; cbv beta iota.
  all: next_statement; rewrite cable_leaf_run; cbv beta iota.
  all: next_statement; read_item; cbv beta iota.
  all: next_statement; rewrite cable_leaf_run; cbv beta iota.
  all: next_statement; read_item; cbv beta iota.
  all: next_statement; rewrite cable_leaf_run; cbv beta iota.
  (* Source(s) *)
  all: next_statement; read_item; cbv beta iota.
  all: next_statement; unfold sources_element, sources_list.
  all: destruct (String.eqb f5 EmptyString);
    [ unfold ret at 1; cbv beta iota;
      next_statement; rewrite cable_sub_run; cbv beta iota;
      next_statement; cbn [Nat.ltb Nat.leb]; unfold ret at 1; cbv beta iota
    | next_statement; read_item; cbv beta iota; unfold ret at 1; cbv beta iota;
      next_statement; rewrite cable_sub_run; cbv beta iota;
      next_statement; rewrite split_length_pos; unfold local;
      next_statement; unfold ret at 1; cbv beta iota;
      rewrite child_for_each_run; cbv beta iota ].
  (* Header *)
  all: next_statement; rewrite cable_sub_run; cbv beta iota.
  all: next_statement; read_item; cbv beta iota.
  all: next_statement; unfold header_element, header_lines.
  all: destruct (rmatch header_re f6) as [[e m]|] eqn:Em;
    [ destruct (rmatch_binds header_re 1 f6 e m eq_refl Em) as [v Hv];
      unfold captured; rewrite Hv; unfold group_strip;
      next_statement; unfold ret at 1; cbv beta iota;
      next_statement; rewrite child_leaf_run; cbv beta iota;
      next_statement; rewrite child_leaf_run; cbv beta iota;
      next_statement; rewrite child_leaf_run; cbv beta iota;
      next_statement; rewrite child_list_run; cbv beta iota;
      next_statement; rewrite child_list_run; cbv beta iota;
      rewrite child_list_run; cbv beta iota
    | rewrite print_run; cbv beta iota ].
  (* Message Text *)
  all: next_statement; read_item; cbv beta iota.
  all: next_statement; rewrite cable_content_run; cbv beta iota.
  all: unfold save_xmlString; cbn [root xmlString stdout].
  all: rewrite <- ?app_assoc; cbn [app]; reflexivity.
Qed.

(** ** A whole file *)

Lemma append_all_nil (e : Element) : append_all [] e = e.
Proof. destruct e; unfold append_all; simpl. now rewrite app_nil_r. Qed.

Lemma append_all_cons (c : Element) (l : list Element) (e : Element) :
  append_all (c :: l) e = append_all l (append c e).
Proof. destruct e; unfold append_all, append; simpl. now rewrite <- app_assoc. Qed.

(** The loop over the rows returns [None] and never raises. *)
Lemma parse_rows_run (rows : csvreader) (st : state) :
  parse_rows rows st = (Return None, rows_state rows st).
Proof.
  revert st. induction rows as [|[line_num currentLine] rest IH]; intros [r x o].
  - unfold rows_state, rows_lines; simpl. now rewrite append_all_nil, app_nil_r.
  - unfold rows_state, rows_lines. simpl.
    destruct (Nat.eqb (List.length currentLine) 8) eqn:E; simpl.
    + apply Nat.eqb_eq in E. unfold bind at 1.
      rewrite (parseCSVLine_run currentLine r x o E). rewrite IH.
      unfold rows_state, rows_lines; simpl. rewrite <- append_all_cons.
      rewrite <- !app_assoc. f_equal. f_equal.
      destruct (parsed_rows rest); [|reflexivity].
      simpl. now rewrite append_all_cons, append_all_nil.
    + unfold bind. rewrite print_run. unfold ret.
      now rewrite append_all_nil.
Qed.

Lemma parseCSVFile_empty (filePath : string) (st : state) :
  parseCSVFile filePath [] st
  = (Return (Some false),
     {| root := root st; xmlString := xmlString st;
        stdout := stdout st ++ [ERROR_EMPTY filePath] |}).
Proof. reflexivity. Qed.

Lemma parseCSVFile_rows (filePath : string) (first : nat * list string)
    (rows : csvreader) (st : state) :
  parseCSVFile filePath (first :: rows) st = (Return None, rows_state rows st).
Proof. unfold parseCSVFile; simpl. apply parse_rows_run. Qed.

(** ** The properties of the record parser *)

Lemma parseCSVLine_cable (csvLine : list string) (st : state) :
  List.length csvLine = 8 ->
  parseCSVLine csvLine st
  = (Return tt,
     {| root := append (cable_element csvLine) (root st);
        xmlString := Some (append (cable_element csvLine) (root st));
        stdout := stdout st ++ cable_lines csvLine |}).
Proof. destruct st as [r x o]. apply parseCSVLine_run. Qed.

Ltac eight_fields csvLine H :=
  destruct csvLine as [|?f0 [|?f1 [|?f2 [|?f3 [|?f4 [|?f5 [|?f6 [|?f7 [|]]]]]]]]];
  try discriminate H; clear H.

Lemma join_split (sep : ascii) (s : string) : join sep (split sep s) = s.
Proof.
  induction s as [|c s IH]; [reflexivity|]. simpl.
  pose proof (split_not_nil sep s) as Hne.
  destruct (Ascii.eqb c sep) eqn:E.
  - apply Ascii.eqb_eq in E. subst c.
    destruct (split sep s) as [|h t]; [congruence|].
    change (join sep (EmptyString :: h :: t)) with (String sep (join sep (h :: t))).
    now rewrite IH.
  - destruct (split sep s) as [|h t]; [congruence|].
    destruct t as [|h' t]; simpl in *; now rewrite <- IH.
Qed.

Lemma occurrences_app (w : string) (l1 l2 : list string) :
  occurrences w (l1 ++ l2) = occurrences w l1 + occurrences w l2.
Proof. unfold occurrences. now rewrite filter_app, length_app. Qed.

Lemma errors_app (l1 l2 : list string) : errors (l1 ++ l2) = errors l1 + errors l2.
Proof. unfold errors. now rewrite filter_app, length_app. Qed.

(** The lines the content extractor prints are among its three warnings,
    each at most once and in this order. *)
Lemma content_lines_cases (contentText : string) :
  exists a b c : bool,
    content_lines contentText
    = (if a then [WARN_EO] else []) ++ (if b then [WARN_TAGS] else [])
      ++ (if c then [WARN_SUBJECT] else []).
Proof.
  unfold content_lines, content_fields, extract.
  destruct (scan eo_re _) as [[v1 it1]|];
    match goal with |- context [scan tags_re ?it] => destruct (scan tags_re it) as [[v2 it2]|] end;
    match goal with |- context [scan subject_re ?it] => destruct (scan subject_re it) as [[v3 it3]|] end;
    match goal with |- context [scan ref_re ?it] => destruct (scan ref_re it) as [[v4 it4]|] end;
    cbn [snd app].
  all: first
    [ now exists false, false, false | now exists true, false, false
    | now exists false, true, false | now exists true, true, false
    | now exists false, false, true | now exists true, false, true
    | now exists false, true, true | now exists true, true, true ].
Qed.

(** C7. For every record of 8 values the cable carries the identifier, the
    reference, the origin and the classification of the record (values 1,
    3, 4 and 5) exactly as given: nothing is trimmed or transformed. *)
Theorem scalar_fields_verbatim (csvLine : list string) (st : state) :
  List.length csvLine = 8 ->
  exists cable lines,
    parseCSVLine csvLine st
    = (Return tt,
       {| root := append cable (root st);
          xmlString := Some (append cable (root st));
          stdout := stdout st ++ lines |})
    /\ tag cable = "cable"
    /\ attrib cable = [("idInSource", nth 0 csvLine EmptyString)]
    /\ ET.findall "reference" cable
       = [mkElement "reference" [] (Some (nth 2 csvLine EmptyString)) []]
    /\ ET.findall "origin" cable
       = [mkElement "origin" [] (Some (nth 3 csvLine EmptyString)) []]
    /\ ET.findall "classification" cable
       = [mkElement "classification" [] (Some (nth 4 csvLine EmptyString)) []].
Proof.
  intros Hlen. exists (cable_element csvLine), (cable_lines csvLine).
  split; [now apply parseCSVLine_cable|].
  eight_fields csvLine Hlen.
  unfold cable_element, field, datetime_elements; cbn [nth].
  destruct (strptime f1); repeat split; reflexivity.
Qed.

Lemma scalar_fields_verbatim_witness :
  exists cable lines,
    parseCSVLine sample_record init
    = (Return tt,
       {| root := append cable (root init);
          xmlString := Some (append cable (root init));
          stdout := stdout init ++ lines |})
    /\ tag cable = "cable"
    /\ attrib cable = [("idInSource", "1")]
    /\ ET.findall "reference" cable = [mkElement "reference" [] (Some "66BUENOSAIRES2481") []]
    /\ ET.findall "origin" cable = [mkElement "origin" [] (Some "Embassy Buenos Aires") []]
    /\ ET.findall "classification" cable = [mkElement "classification" [] (Some "UNCLASSIFIED") []].
Proof. exact (scalar_fields_verbatim sample_record init eq_refl). Defined.

(** C6. The sources block of a record of 8 values: an empty sources value
    gives count 0 and no child; any other value is split on the bar, one
    child per piece in the order of the text, the count being the number
    of children, and the pieces joined by bars give the value back, so no
    piece is altered. For the value A|B|C the count is 3 and the children
    are A, B, C. *)
Theorem sources_split_in_order (csvLine : list string) (st : state) :
  List.length csvLine = 8 ->
  let field5 := nth 5 csvLine EmptyString in
  let entries := if String.eqb field5 "" then [] else split "|" field5 in
  exists cable lines,
    parseCSVLine csvLine st
    = (Return tt,
       {| root := append cable (root st);
          xmlString := Some (append cable (root st));
          stdout := stdout st ++ lines |})
    /\ ET.findall "sources" cable
       = [mkElement "sources" [("count", str (List.length entries))] None
            (map (fun source => mkElement "source" [] (Some source) []) entries)]
    /\ (field5 = "" -> entries = [])
    /\ (field5 <> "" -> entries <> [] /\ join "|" entries = field5)
    /\ (field5 = "A|B|C" ->
        ET.findall "sources" cable
        = [mkElement "sources" [("count", "3")] None
             [mkElement "source" [] (Some "A") [];
              mkElement "source" [] (Some "B") [];
              mkElement "source" [] (Some "C") []]]).
Proof.
  intros Hlen field5 entries. exists (cable_element csvLine), (cable_lines csvLine).
  split; [now apply parseCSVLine_cable|].
  eight_fields csvLine Hlen. subst field5 entries. cbn [nth].
  assert (Hs : ET.findall "sources" (cable_element [f0; f1; f2; f3; f4; f5; f6; f7])
               = [sources_element f5]).
  { unfold cable_element, field, datetime_elements; cbn [nth].
    destruct (strptime f1); reflexivity. }
  rewrite Hs. unfold sources_element, sources_list.
  split; [reflexivity|]. split; [|split].
  - intros ->. reflexivity.
  - intros Hne. destruct (String.eqb f5 "") eqn:E.
    + apply String.eqb_eq in E. contradiction.
    + split; [apply split_not_nil | apply join_split].
  - intros ->. reflexivity.
Qed.

Lemma sources_split_in_order_witness :
  exists cable lines,
    parseCSVLine sample_record init
    = (Return tt,
       {| root := append cable (root init);
          xmlString := Some (append cable (root init));
          stdout := stdout init ++ lines |})
    /\ ET.findall "sources" cable
       = [mkElement "sources" [("count", "3")] None
            [mkElement "source" [] (Some "A") [];
             mkElement "source" [] (Some "B") [];
             mkElement "source" [] (Some "C") []]]
    /\ join "|" ["A"; "B"; "C"] = "A|B|C".
Proof.
  destruct (sources_split_in_order sample_record init eq_refl)
    as (cable & lines & Hrun & _ & _ & Hjoin & Habc).
  exists cable, lines. split; [exact Hrun|]. split.
  - apply Habc. reflexivity.
  - apply Hjoin. discriminate.
Defined.

(** C4. The timestamp 12/28/1966 18:48 gives the components 1966, 12, 28,
    18 and 48, all five in the cable. When the timestamp of a record of 8
    values does not parse (not-a-date does not), none of the five appears,
    the timestamp warning is printed exactly once, and the method returns
    with the rest of the cable as it is for a timestamp that parses. *)
Theorem timestamp_all_or_nothing (csvLine : list string) (st : state) :
  List.length csvLine = 8 ->
  exists cable lines,
    parseCSVLine csvLine st
    = (Return tt,
       {| root := append cable (root st);
          xmlString := Some (append cable (root st));
          stdout := stdout st ++ lines |})
    /\ strptime "12/28/1966 18:48"
       = Some {| tm_year := 1966; tm_mon := 12; tm_mday := 28; tm_hour := 18; tm_min := 48 |}
    /\ strptime "not-a-date" = None
    /\ (nth 1 csvLine EmptyString = "12/28/1966 18:48" ->
        firstn 5 (children cable)
        = [mkElement "year" [] (Some "1966") []; mkElement "month" [] (Some "12") [];
           mkElement "day" [] (Some "28") []; mkElement "hour" [] (Some "18") [];
           mkElement "minute" [] (Some "48") []]
        /\ occurrences WARN_TIME lines = 0)
    /\ (strptime (nth 1 csvLine EmptyString) = None ->
        map tag (children cable)
        = ["reference"; "origin"; "classification"; "sources"; "header"; "content"]
        /\ occurrences WARN_TIME lines = 1
        /\ exists cable' lines',
             parseCSVLine (set_field 1 "12/28/1966 18:48" csvLine) st
             = (Return tt,
                {| root := append cable' (root st);
                   xmlString := Some (append cable' (root st));
                   stdout := stdout st ++ lines' |})
             /\ attrib cable' = attrib cable
             /\ skipn 5 (children cable') = children cable
             /\ WARN_TIME :: lines' = lines).
Proof.
  intros Hlen. exists (cable_element csvLine), (cable_lines csvLine).
  split; [now apply parseCSVLine_cable|].
  split; [reflexivity|]. split; [reflexivity|].
  eight_fields csvLine Hlen. cbn [nth].
  unfold cable_element, cable_lines, field, datetime_elements, datetime_lines; cbn [nth].
  split.
  - intros ->. split; [reflexivity|].
    change (strptime "12/28/1966 18:48") with
      (Some {| tm_year := 1966; tm_mon := 12; tm_mday := 28; tm_hour := 18; tm_min := 48 |}).
    cbn [app]. rewrite occurrences_app. unfold header_lines.
    destruct (content_lines_cases f7) as (a & b & c & ->).
    destruct (rmatch header_re f6), a, b, c; reflexivity.
  - intros Hnone. rewrite Hnone. split; [reflexivity|]. split.
    + cbn [app]. change (WARN_TIME :: ?l) with ([WARN_TIME] ++ l).
      rewrite !occurrences_app. unfold header_lines.
      destruct (content_lines_cases f7) as (a & b & c & ->).
      destruct (rmatch header_re f6), a, b, c; reflexivity.
    + exists (cable_element [f0; "12/28/1966 18:48"; f2; f3; f4; f5; f6; f7]),
             (cable_lines [f0; "12/28/1966 18:48"; f2; f3; f4; f5; f6; f7]).
      split; [now apply parseCSVLine_cable|].
      repeat split.
Qed.

Lemma timestamp_all_or_nothing_witness :
  exists cable lines,
    parseCSVLine unparsed_time_record init
    = (Return tt,
       {| root := append cable (root init);
          xmlString := Some (append cable (root init));
          stdout := stdout init ++ lines |})
    /\ map tag (children cable)
       = ["reference"; "origin"; "classification"; "sources"; "header"; "content"]
    /\ occurrences WARN_TIME lines = 1.
Proof.
  destruct (timestamp_all_or_nothing unparsed_time_record init eq_refl)
    as (cable & lines & Hrun & _ & _ & _ & Hbad).
  exists cable, lines. split; [exact Hrun|].
  destruct (Hbad eq_refl) as (Htags & Hwarn & _). split; assumption.
Defined.

(** ** The properties of the file loop *)

Lemma cable_lines_no_error (csvLine : list string) : errors (cable_lines csvLine) = 0.
Proof.
  unfold cable_lines, datetime_lines, header_lines. rewrite !errors_app.
  destruct (content_lines_cases (field csvLine 7)) as (a & b & c & ->).
  destruct (strptime _), (rmatch header_re _), a, b, c; reflexivity.
Qed.

Lemma cable_lines_not_empty_error (filePath : string) (csvLine : list string) :
  occurrences (ERROR_EMPTY filePath) (cable_lines csvLine) = 0.
Proof.
  unfold cable_lines, datetime_lines, header_lines. rewrite !occurrences_app.
  destruct (content_lines_cases (field csvLine 7)) as (a & b & c & ->).
  destruct (strptime _), (rmatch header_re _), a, b, c; reflexivity.
Qed.

Lemma rows_lines_not_empty_error (filePath : string) (rows : csvreader) :
  occurrences (ERROR_EMPTY filePath) (rows_lines rows) = 0.
Proof.
  unfold rows_lines. rewrite occurrences_app.
  assert (H : forall l, occurrences (ERROR_EMPTY filePath) (concat (map cable_lines l)) = 0).
  { induction l as [|a l IH]; [reflexivity|]. simpl.
    now rewrite occurrences_app, cable_lines_not_empty_error, IH. }
  rewrite H. destruct (malformed_row rows); reflexivity.
Qed.

Lemma parsed_rows_length (rows : csvreader) :
  List.length (parsed_rows rows) <= List.length rows.
Proof.
  induction rows as [|[n l] rows IH]; simpl; [lia|].
  destruct (Nat.eqb (List.length l) 8); simpl; lia.
Qed.

(** C10. [parseCSVFile] takes the first row off the reader and never looks
    at it: the outcome is that of the loop over the rows after it, whatever
    the first row holds; a file of one row leaves the document as it was and
    prints nothing; the empty-file error is printed, and [False] returned,
    for a file of no rows, and for no other file. *)
Theorem first_row_discarded (filePath : string) (first first' : nat * list string)
    (rows : csvreader) (st : state) :
  parseCSVFile filePath (first :: rows) st = parse_rows rows st
  /\ parseCSVFile filePath (first :: rows) st = parseCSVFile filePath (first' :: rows) st
  /\ parseCSVFile filePath [first] st = (Return None, st)
  /\ parseCSVFile filePath [] st
     = (Return (Some false),
        {| root := root st; xmlString := xmlString st;
           stdout := stdout st ++ [ERROR_EMPTY filePath] |})
  /\ exists cables lines,
       children (root (snd (parseCSVFile filePath (first :: rows) st)))
       = children (root st) ++ cables
       /\ List.length cables <= List.length rows
       /\ stdout (snd (parseCSVFile filePath (first :: rows) st)) = stdout st ++ lines
       /\ occurrences (ERROR_EMPTY filePath) lines = 0.
Proof.
  split; [reflexivity|]. split; [reflexivity|]. split.
  - rewrite parseCSVFile_rows. unfold rows_state, rows_lines; simpl.
    rewrite append_all_nil, app_nil_r. now destruct st.
  - split; [reflexivity|].
    exists (map cable_element (parsed_rows rows)), (rows_lines rows).
    rewrite parseCSVFile_rows. cbn [snd rows_state root stdout].
    split; [now destruct (root st)|]. split.
    + rewrite length_map. apply parsed_rows_length.
    + split; [reflexivity | apply rows_lines_not_empty_error].
Qed.

(** C9. [parseCSVFile] returns for every sequence of rows, whatever the
    values hold and also for no row at all: it never raises. It returns
    [None] or [False], the document has grown by whole cables, at most one
    for each row after the first, and when a row after the first is left
    without a cable an error line has been printed. On the way,
    [parseCSVLine] returns for every row of 8 values and
    [parseCableMessageText] for every text. *)
Theorem parse_never_raises (filePath : string) (reader : csvreader) (st : state) :
  (exists ret st' cables lines,
     parseCSVFile filePath reader st = (Return ret, st')
     /\ (ret = None \/ ret = Some false)
     /\ children (root st') = children (root st) ++ cables
     /\ Forall (fun cable => tag cable = "cable") cables
     /\ List.length cables <= List.length (tl reader)
     /\ stdout st' = stdout st ++ lines
     /\ (List.length cables < List.length (tl reader) -> errors lines = 1))
  /\ (forall csvLine, List.length csvLine = 8 -> fst (parseCSVLine csvLine st) = Return tt)
  /\ (forall p e contentText,
        find p (root st) = Some e ->
        fst (parseCableMessageText p contentText st) = Return tt).
Proof.
  split; [|split].
  - destruct reader as [|first rows].
    + exists (Some false), {| root := root st; xmlString := xmlString st;
                              stdout := stdout st ++ [ERROR_EMPTY filePath] |},
             [], [ERROR_EMPTY filePath].
      split; [reflexivity|]. split; [now right|]. split; [simpl; now rewrite app_nil_r|].
      split; [constructor|]. split; [simpl; lia|]. split; [reflexivity|].
      simpl. lia.
    + exists None, (rows_state rows st), (map cable_element (parsed_rows rows)), (rows_lines rows).
      split; [apply parseCSVFile_rows|]. split; [now left|].
      split; [cbn [rows_state root]; now destruct (root st)|].
      split; [apply Forall_forall; intros c Hc; apply in_map_iff in Hc;
              destruct Hc as (l & <- & _); reflexivity|].
      rewrite length_map. split; [apply parsed_rows_length|]. split; [reflexivity|].
      cbn [tl]. clear first. unfold rows_lines. rewrite errors_app.
      assert (H : forall l, errors (concat (map cable_lines l)) = 0).
      { induction l as [|a l IH]; [reflexivity|]. simpl.
        now rewrite errors_app, cable_lines_no_error, IH. }
      rewrite H. clear H. induction rows as [|[n l] rows IH]; simpl; [lia|].
      destruct (Nat.eqb (List.length l) 8); simpl; [|reflexivity].
      intros Hlt. apply IH. lia.
  - intros csvLine Hlen. now rewrite parseCSVLine_cable.
  - intros p e contentText Hf. destruct st as [r x o].
    now rewrite (parseCableMessageText_run p contentText r e x o Hf).
Qed.

Lemma parse_never_raises_witness :
  fst (parseCSVLine sample_record init) = Return tt
  /\ fst (parseCableMessageText [] sample_content fresh_cable) = Return tt.
Proof.
  destruct (parse_never_raises "cables.csv" [] init) as (_ & Hline & _).
  destruct (parse_never_raises "cables.csv" [] fresh_cable) as (_ & _ & Htext).
  split; [exact (Hline sample_record eq_refl) | exact (Htext [] _ sample_content eq_refl)].
Defined.

(** C5, as the code has it. When the first row of a file (which is
    discarded) is followed by four rows of 8 values and then by a row of 7,
    the parse appends exactly 4 cables, those of the four rows, prints one
    error line, the one for the row of 7, and processes nothing after it. *)
Theorem malformed_row_stops_file (filePath : string)
    (first r1 r2 r3 r4 r5 : nat * list string) (rest : csvreader) (st : state) :
  List.length (snd r1) = 8 -> List.length (snd r2) = 8 ->
  List.length (snd r3) = 8 -> List.length (snd r4) = 8 ->
  List.length (snd r5) = 7 ->
  exists c1 c2 c3 c4 lines,
    parseCSVFile filePath (first :: r1 :: r2 :: r3 :: r4 :: r5 :: rest) st
    = (Return None,
       {| root := append_all [c1; c2; c3; c4] (root st);
          xmlString := Some (append_all [c1; c2; c3; c4] (root st));
          stdout := stdout st ++ lines |})
    /\ map attrib [c1; c2; c3; c4]
       = map (fun r => [("idInSource", nth 0 (snd r) EmptyString)]) [r1; r2; r3; r4]
    /\ errors lines = 1
    /\ last lines EmptyString = ERROR_LINE (fst r5)
    /\ parseCSVFile filePath (first :: r1 :: r2 :: r3 :: r4 :: r5 :: rest) st
       = parseCSVFile filePath [first; r1; r2; r3; r4; r5] st.
Proof.
  destruct r1 as [n1 l1], r2 as [n2 l2], r3 as [n3 l3], r4 as [n4 l4], r5 as [n5 l5].
  cbn [fst snd]. intros H1 H2 H3 H4 H5.
  exists (cable_element l1), (cable_element l2), (cable_element l3), (cable_element l4),
         (cable_lines l1 ++ cable_lines l2 ++ cable_lines l3 ++ cable_lines l4
          ++ [ERROR_LINE n5]).
  rewrite !parseCSVFile_rows. unfold rows_state, rows_lines. cbn [parsed_rows malformed_row].
  rewrite H1, H2, H3, H4, H5. cbn [Nat.eqb map concat app]. rewrite !app_nil_r.
  rewrite <- !app_assoc.
  split; [reflexivity|]. split; [reflexivity|]. split.
  - rewrite !errors_app, !cable_lines_no_error. reflexivity.
  - split; [|reflexivity]. rewrite !app_assoc. apply last_last.
Qed.

Lemma malformed_row_stops_file_witness :
  exists c1 c2 c3 c4 lines,
    parseCSVFile "cables.csv" ((0, ["id"]) :: five_rows) init
    = (Return None,
       {| root := append_all [c1; c2; c3; c4] (root init);
          xmlString := Some (append_all [c1; c2; c3; c4] (root init));
          stdout := stdout init ++ lines |})
    /\ errors lines = 1.
Proof.
  destruct (malformed_row_stops_file "cables.csv" (0, ["id"]) (1, sample_record)
              (2, sample_record) (3, sample_record) (4, sample_record) (5, short_record)
              [] init eq_refl eq_refl eq_refl eq_refl eq_refl)
    as (c1 & c2 & c3 & c4 & lines & Hrun & _ & Herr & _).
  exists c1, c2, c3, c4, lines. split; [exact Hrun | exact Herr].
Defined.

(** C5, as stated, fails: on a file of five rows, four of 8 values and the
    fifth of 7, the document holds 3 cables, not 4, because the first row
    is taken off before the loop and never parsed. *)
Lemma five_rows_three_cables :
  List.length (children (root (snd (parseCSVFile "cables.csv" five_rows init)))) = 3
  /\ ~ List.length (children (root (snd (parseCSVFile "cables.csv" five_rows init)))) = 4.
Proof.
  assert (H : List.length (children (root (snd (parseCSVFile "cables.csv" five_rows init)))) = 3)
    by (vm_compute; reflexivity).
  split; [exact H | rewrite H; discriminate].
Qed.

(** ** The properties of the content extractor *)

Lemma scan_found (re : regex) (cursor : list string) :
  found_in re cursor = negb (is_none (scan re cursor)).
Proof.
  induction cursor as [|line rest IH]; [reflexivity|]. simpl.
  destruct (rmatch re line) as [[e m]|]; [reflexivity | exact IH].
Qed.

Lemma scan_rest_incl (re : regex) (cursor rest : list string) (v : string) :
  scan re cursor = Some (v, rest) -> incl rest cursor.
Proof.
  induction cursor as [|line cursor IH]; [discriminate|]. simpl.
  destruct (rmatch re line) as [[e m]|].
  - intros H. injection H as _ <-. apply incl_tl, incl_refl.
  - intros H. apply incl_tl. now apply IH.
Qed.

Lemma scan_missing (re : regex) (cableLines cursor : list string) :
  found_in re cableLines = false -> incl cursor cableLines -> scan re cursor = None.
Proof.
  intros Hno Hincl.
  assert (H : found_in re cursor = false).
  { unfold found_in in *. apply not_true_is_false. intros Hex.
    apply existsb_exists in Hex. destruct Hex as (line & Hin & Hline).
    assert (Hex : existsb (fun line => negb (is_none (rmatch re line))) cableLines = true)
      by (apply existsb_exists; exists line; split; [now apply Hincl | exact Hline]).
    congruence. }
  rewrite scan_found in H. now destruct (scan re cursor).
Qed.

Lemma extract_cases (re : regex) (build : string -> Element) (w cableLines cursor : list string) :
  incl cursor cableLines ->
  (scan re cursor = None /\ extract re build w cableLines cursor = ([], w, cableLines))
  \/ (exists v rest,
        scan re cursor = Some (v, rest) /\ incl rest cableLines
        /\ extract re build w cableLines cursor = ([build v], [], rest)).
Proof.
  intros I. unfold extract. destruct (scan re cursor) as [[v rest]|] eqn:E.
  - right. exists v, rest. split; [reflexivity|]. split; [|reflexivity].
    eapply incl_tran; [eapply scan_rest_incl; exact E | exact I].
  - left. split; reflexivity.
Qed.

Lemma extract_content_run (contentText : string) :
  extract_content contentText
  = (Return tt,
     {| root := mkElement "cable" [] None [content_element contentText];
        xmlString := None;
        stdout := content_lines contentText |}).
Proof.
  unfold extract_content, fresh_cable.
  now rewrite (parseCableMessageText_run [] contentText _ _ None [] eq_refl).
Qed.

(** C1, as stated, fails: for the blob with the lines SUBJECT: Hello and
    TAGS: a, b the output does not contain both tags and subject. *)
Lemma subject_before_tags_not_recorded :
  let content := last_child (root (snd (extract_content subject_first_text))) in
  split LF subject_first_text = ["SUBJECT: Hello"; "TAGS: a, b"]
  /\ recorded "subject" content = false
  /\ ~ (recorded "tags" content = true /\ recorded "subject" content = true).
Proof.
  assert (H : recorded "subject" (last_child (root (snd (extract_content subject_first_text))))
              = false) by (vm_compute; reflexivity).
  cbv zeta. split; [reflexivity|]. split; [exact H|].
  intros [_ Hs]. rewrite H in Hs. discriminate.
Qed.

(** C1, as the code has it. For the blob with the lines SUBJECT: Hello
    and TAGS: a, b the extractor records no E.O. line and prints its
    warning, then, the cursor being back at the start, records the tags a
    and b from the line at position 1; the cursor now stands after that
    line (the scan for TAGS leaves no line), so the SUBJECT line at
    position 0 is not found: no subject is recorded and its warning is
    printed. For every blob, the fields
    recorded come in target order (eoline, tags, subject, ref) before
    fullText. *)
Theorem reset_law :
  extract_content subject_first_text
  = (Return tt,
     {| root :=
          mkElement "cable" [] None
            [mkElement "content" [] None
               [mkElement "tags" [("count", "2")] None
                  [mkElement "tag" [] (Some "a") []; mkElement "tag" [] (Some "b") []];
                mkElement "fullText" [] (Some "'SUBJECT: Hello\nTAGS: a, b'") []]];
        xmlString := None;
        stdout := [WARN_EO; WARN_SUBJECT] |})
  /\ split LF subject_first_text = ["SUBJECT: Hello"; "TAGS: a, b"]
  /\ scan eo_re ["SUBJECT: Hello"; "TAGS: a, b"] = None
  /\ scan tags_re ["SUBJECT: Hello"; "TAGS: a, b"] = Some ("a, b", [])
  /\ scan subject_re [] = None
  /\ forall contentText,
       subsequence
         (map tag (children (last_child (root (snd (extract_content contentText))))))
         ["eoline"; "tags"; "subject"; "ref"; "fullText"] = true.
Proof.
  split; [vm_compute; reflexivity|].
  split; [reflexivity|]. split; [vm_compute; reflexivity|].
  split; [vm_compute; reflexivity|]. split; [reflexivity|].
  intros contentText. rewrite extract_content_run.
  cbn [snd root last_child children last]. unfold content_element, content_fields, extract.
  destruct (scan eo_re _) as [[v1 it1]|];
    match goal with |- context [scan tags_re ?it] => destruct (scan tags_re it) as [[v2 it2]|] end;
    match goal with |- context [scan subject_re ?it] => destruct (scan subject_re it) as [[v3 it3]|] end;
    match goal with |- context [scan ref_re ?it] => destruct (scan ref_re it) as [[v4 it4]|] end;
    reflexivity.
Qed.

(** C3, as stated, fails: a blob with none of the four fields gets three
    warnings, not four; nothing is printed for the missing REF. *)
Lemma missing_ref_prints_nothing :
  let lines := stdout (snd (extract_content plain_text)) in
  found_in ref_re (split LF plain_text) = false
  /\ lines = [WARN_EO; WARN_TAGS; WARN_SUBJECT]
  /\ ~ (exists w1 w2 w3 w4, NoDup [w1; w2; w3; w4] /\ incl [w1; w2; w3; w4] lines).
Proof.
  assert (H : stdout (snd (extract_content plain_text)) = [WARN_EO; WARN_TAGS; WARN_SUBJECT])
    by (vm_compute; reflexivity).
  cbv zeta. split; [vm_compute; reflexivity|]. split; [exact H|].
  rewrite H. intros (w1 & w2 & w3 & w4 & Hnd & Hincl).
  pose proof (NoDup_incl_length Hnd Hincl) as Hlen. simpl in Hlen. lia.
Qed.

(** C3, as the code has it. For each of E.O., TAGS and SUBJECT, when no
    line of the blob matches the pattern of the field, the field is left
    out, its warning is printed once, and the scan for the next field
    starts again from the first line, so the next field is recorded exactly
    when some line matches its pattern. When no line matches the REF
    pattern the ref is left out and nothing is printed for it: the lines
    printed are among the three warnings. The full text is always there. *)
Theorem missing_field_warnings (p : ref) (r e : Element) (x : option Element)
    (o : list string) (contentText : string) :
  find p r = Some e ->
  let cableLines := split LF contentText in
  exists content lines,
    parseCableMessageText p contentText {| root := r; xmlString := x; stdout := o |}
    = (Return tt,
       {| root := alter p (append content) r; xmlString := x; stdout := o ++ lines |})
    /\ (found_in eo_re cableLines = false ->
        recorded "eoline" content = false /\ occurrences WARN_EO lines = 1
        /\ recorded "tags" content = found_in tags_re cableLines)
    /\ (found_in tags_re cableLines = false ->
        recorded "tags" content = false /\ occurrences WARN_TAGS lines = 1
        /\ recorded "subject" content = found_in subject_re cableLines)
    /\ (found_in subject_re cableLines = false ->
        recorded "subject" content = false /\ occurrences WARN_SUBJECT lines = 1
        /\ recorded "ref" content = found_in ref_re cableLines)
    /\ (found_in ref_re cableLines = false -> recorded "ref" content = false)
    /\ incl lines [WARN_EO; WARN_TAGS; WARN_SUBJECT]
    /\ recorded "fullText" content = true.
Proof.
  intros Hf cableLines.
  exists (content_element contentText), (content_lines contentText).
  split; [now apply parseCableMessageText_run with (e := e)|].
  unfold content_element, content_lines, content_fields.
  fold cableLines. pose proof (incl_refl cableLines) as I0.
  destruct (extract_cases eo_re eoline_element [WARN_EO] cableLines cableLines I0)
    as [[E1 ->]|(v1 & it1 & E1 & I1 & ->)].
  all: match goal with
       | I : incl ?it _ |- context [extract tags_re ?b ?w ?l ?it] =>
           destruct (extract_cases tags_re b w l it I) as [[E2 ->]|(v2 & it2 & E2 & I2 & ->)]
       end.
  all: match goal with
       | I : incl ?it _ |- context [extract subject_re ?b ?w ?l ?it] =>
           destruct (extract_cases subject_re b w l it I) as [[E3 ->]|(v3 & it3 & E3 & I3 & ->)]
       end.
  all: match goal with
       | I : incl ?it _ |- context [extract ref_re ?b ?w ?l ?it] =>
           destruct (extract_cases ref_re b w l it I) as [[E4 ->]|(v4 & it4 & E4 & I4 & ->)]
       end.
  all: cbn [fst snd app].
  all: repeat match goal with
         | |- _ /\ _ => split
         | |- _ -> _ => let H := fresh "Hno" in intros H
         end.
  all: try reflexivity.
  all: try (match goal with
            | Hno : found_in ?re _ = false, E : scan ?re ?it = Some _, I : incl ?it _ |- _ =>
                rewrite (scan_missing re _ it Hno I) in E; discriminate E
            end).
  all: try (match goal with
            | E : scan ?re ?it = _ |- _ = found_in ?re ?it =>
                rewrite scan_found, E; reflexivity
            end).
  all: try (intros w Hw; simpl in Hw; simpl; tauto).
Qed.

Lemma missing_field_warnings_witness :
  exists content lines,
    parseCableMessageText [] plain_text fresh_cable
    = (Return tt,
       {| root := alter [] (append content) (root fresh_cable);
          xmlString := None; stdout := [] ++ lines |})
    /\ (recorded "eoline" content = false /\ occurrences WARN_EO lines = 1)
    /\ (recorded "tags" content = false /\ occurrences WARN_TAGS lines = 1)
    /\ (recorded "subject" content = false /\ occurrences WARN_SUBJECT lines = 1)
    /\ recorded "ref" content = false
    /\ recorded "fullText" content = true.
Proof.
  destruct (missing_field_warnings [] (root fresh_cable) (root fresh_cable) None []
              plain_text eq_refl)
    as (content & lines & Hrun & Heo & Htags & Hsubject & Href & _ & Hfull).
  exists content, lines. split; [exact Hrun|].
  split; [split; apply (Heo eq_refl)|].
  split; [split; apply (Htags eq_refl)|].
  split; [split; apply (Hsubject eq_refl)|].
  split; [exact (Href eq_refl) | exact Hfull].
Defined.

(** ** The properties of the header *)

Lemma header_of_cable (csvLine : list string) :
  List.length csvLine = 8 ->
  ET.findall "header" (cable_element csvLine) = [header_element (nth 6 csvLine EmptyString)]
  /\ attrib (cable_element csvLine) = [("idInSource", nth 0 csvLine EmptyString)].
Proof.
  intros Hlen. eight_fields csvLine Hlen.
  unfold cable_element, field, datetime_elements; cbn [nth].
  destruct (strptime f1); split; reflexivity.
Qed.

(** C2, as stated, fails: for a record whose header has no TO line the
    pattern does not match, yet the cable has a header element. *)
Lemma mismatched_header_still_has_element :
  let cable := last_child (root (snd (parseCSVLine record_without_to init))) in
  rmatch header_re (nth 6 record_without_to EmptyString) = None
  /\ ET.findall "header" cable = [mkElement "header" [] None []]
  /\ ~ recorded "header" cable = false.
Proof.
  assert (H : ET.findall "header" (last_child (root (snd (parseCSVLine record_without_to init))))
              = [mkElement "header" [] None []]) by (vm_compute; reflexivity).
  assert (R : recorded "header" (last_child (root (snd (parseCSVLine record_without_to init))))
              = true) by (vm_compute; reflexivity).
  cbv zeta. split; [vm_compute; reflexivity|]. split; [exact H|].
  rewrite R. discriminate.
Qed.

(** C2, as the code has it. When the header value of a record of 8 values
    does not match the header pattern, the cable keeps the header element
    created before the match, with no child, no text and no attribute:
    nothing is captured in part. The header warning is printed once, and
    the rest of the cable is what it is for any other header value. *)
Theorem mismatched_header_is_empty (csvLine : list string) (st : state) :
  List.length csvLine = 8 ->
  rmatch header_re (nth 6 csvLine EmptyString) = None ->
  exists cable lines,
    parseCSVLine csvLine st
    = (Return tt,
       {| root := append cable (root st);
          xmlString := Some (append cable (root st));
          stdout := stdout st ++ lines |})
    /\ ET.findall "header" cable = [mkElement "header" [] None []]
    /\ occurrences WARN_HEADER lines = 1
    /\ forall header',
         exists cable' lines',
           parseCSVLine (set_field 6 header' csvLine) st
           = (Return tt,
              {| root := append cable' (root st);
                 xmlString := Some (append cable' (root st));
                 stdout := stdout st ++ lines' |})
           /\ attrib cable' = attrib cable
           /\ without "header" cable' = without "header" cable.
Proof.
  intros Hlen Hno. exists (cable_element csvLine), (cable_lines csvLine).
  split; [now apply parseCSVLine_cable|].
  destruct (header_of_cable csvLine Hlen) as [Hh _]. rewrite Hh.
  unfold header_element. rewrite Hno. split; [reflexivity|].
  eight_fields csvLine Hlen. cbn [nth] in Hno.
  split.
  - unfold cable_lines, field, datetime_lines, header_lines; cbn [nth]. rewrite Hno.
    rewrite !occurrences_app.
    destruct (content_lines_cases f7) as (a & b & c & ->).
    destruct (strptime f1), a, b, c; reflexivity.
  - intros header'. cbn [set_field].
    exists (cable_element [f0; f1; f2; f3; f4; f5; header'; f7]),
           (cable_lines [f0; f1; f2; f3; f4; f5; header'; f7]).
    split; [now apply parseCSVLine_cable|].
    unfold cable_element, field, datetime_elements; cbn [nth].
    destruct (strptime f1); split; reflexivity.
Qed.

Lemma mismatched_header_is_empty_witness :
  exists cable lines,
    parseCSVLine record_without_to init
    = (Return tt,
       {| root := append cable (root init);
          xmlString := Some (append cable (root init));
          stdout := stdout init ++ lines |})
    /\ ET.findall "header" cable = [mkElement "header" [] None []]
    /\ occurrences WARN_HEADER lines = 1.
Proof.
  destruct (mismatched_header_is_empty record_without_to init eq_refl eq_refl)
    as (cable & lines & Hrun & Hheader & Hwarn & _).
  exists cable, lines. repeat split; assumption.
Defined.

(** C8, as stated, fails: on a header whose month token has a blank
    before it and whose FM section ends in an empty line, the month is
    copied with its blank, and the from list has one entry where the
    captured text splits into two. *)
Lemma month_copied_untrimmed :
  exists e m,
    rmatch header_re loose_header = Some (e, m)
    /\ let cable := last_child (root (snd (parseCSVLine loose_record init))) in
       ET.findall "header" cable <> [stated_header m]
       /\ ET.findall "header" cable
          = [mkElement "header" [] None
               [mkElement "ref" [] (Some "R 220927Z  AU 72") [];
                mkElement "month" [] (Some " AU") [];
                mkElement "year" [] (Some "72") [];
                mkElement "from" [("count", "1")] None
                  [mkElement "institution" [] (Some "A") []];
                mkElement "to" [("count", "1")] None
                  [mkElement "institution" [] (Some "B") []];
                mkElement "info" [("count", "1")] None
                  [mkElement "institution" [] (Some "C") []]]]
       /\ ET.findall "month" (stated_header m) = [mkElement "month" [] (Some "AU") []]
       /\ ET.findall "from" (stated_header m)
          = [mkElement "from" [("count", "2")] None
               [mkElement "institution" [] (Some "A") [];
                mkElement "institution" [] (Some "") []]].
Proof.
  destruct (rmatch header_re loose_header) as [[e m]|] eqn:E; [|vm_compute in E; discriminate E].
  exists e, m. split; [reflexivity|]. cbv zeta.
  vm_compute in E. injection E as <- <-.
  split; [vm_compute; discriminate|].
  repeat split; vm_compute; reflexivity.
Qed.

(** C8, as the code has it. When the header value of a record of 8 values
    matches the header pattern, the groups ref, month, year, fromlist and
    tolist are all set, and the header block holds, in this order: ref, the
    group trimmed; month and year, the groups as captured; then from, to and
    info. Each list whose group is set holds the captured text, trimmed as a
    whole and then split on line feeds, one institution per piece, each
    piece trimmed, in the order of the text, with their number as count;
    the info list, when its group is not set, is there with count 0 and no
    institution. No header warning is printed. *)
Theorem header_block_on_match (csvLine : list string) (st : state)
    (e : nat) (m : captures) :
  List.length csvLine = 8 ->
  rmatch header_re (nth 6 csvLine EmptyString) = Some (e, m) ->
  exists cable lines ref month year fromlist tolist,
    parseCSVLine csvLine st
    = (Return tt,
       {| root := append cable (root st);
          xmlString := Some (append cable (root st));
          stdout := stdout st ++ lines |})
    /\ group m 1 = Some ref /\ group m 2 = Some month /\ group m 3 = Some year
    /\ group m 4 = Some fromlist /\ group m 5 = Some tolist
    /\ ET.findall "header" cable
       = [mkElement "header" [] None
            [mkElement "ref" [] (Some (strip ref)) [];
             mkElement "month" [] (Some month) [];
             mkElement "year" [] (Some year) [];
             institution_list "from" (Some fromlist);
             institution_list "to" (Some tolist);
             institution_list "info" (group m 6)]]
    /\ (forall which v,
          institution_list which (Some v)
          = mkElement which [("count", str (List.length (split LF (strip v))))] None
              (map (fun current => mkElement "institution" [] (Some (strip current)) [])
                 (split LF (strip v)))
          /\ join LF (split LF (strip v)) = strip v)
    /\ (forall which, institution_list which None = mkElement which [("count", "0")] None [])
    /\ occurrences WARN_HEADER lines = 0.
Proof.
  intros Hlen Hm.
  destruct (rmatch_binds header_re 1 _ e m eq_refl Hm) as [ref Href].
  destruct (rmatch_binds header_re 2 _ e m eq_refl Hm) as [month Hmonth].
  destruct (rmatch_binds header_re 3 _ e m eq_refl Hm) as [year Hyear].
  destruct (rmatch_binds header_re 4 _ e m eq_refl Hm) as [fromlist Hfrom].
  destruct (rmatch_binds header_re 5 _ e m eq_refl Hm) as [tolist Hto].
  exists (cable_element csvLine), (cable_lines csvLine), ref, month, year, fromlist, tolist.
  split; [now apply parseCSVLine_cable|].
  repeat (split; [assumption|]).
  destruct (header_of_cable csvLine Hlen) as [Hh _]. rewrite Hh.
  unfold header_element, captured. rewrite Hm, Href, Hmonth, Hyear, Hfrom, Hto.
  split; [reflexivity|]. split; [|split; [reflexivity|]].
  - intros which v. split; [reflexivity | apply join_split].
  - eight_fields csvLine Hlen. cbn [nth] in Hm.
    unfold cable_lines, field, datetime_lines, header_lines; cbn [nth]. rewrite Hm.
    rewrite !occurrences_app.
    destruct (content_lines_cases f7) as (a & b & c & ->).
    destruct (strptime f1), a, b, c; reflexivity.
Qed.

Lemma header_block_on_match_witness :
  exists cable lines,
    parseCSVLine sample_record init
    = (Return tt,
       {| root := append cable (root init);
          xmlString := Some (append cable (root init));
          stdout := stdout init ++ lines |})
    /\ ET.findall "header" cable
       = [mkElement "header" [] None
            [mkElement "ref" [] (Some "R 220927Z AUG 72") [];
             mkElement "month" [] (Some "AUG") [];
             mkElement "year" [] (Some "72") [];
             mkElement "from" [("count", "1")] None
               [mkElement "institution" [] (Some "AMEMBASSY TEHRAN") []];
             mkElement "to" [("count", "1")] None
               [mkElement "institution" [] (Some "SECSTATE WASHDC 9461") []];
             mkElement "info" [("count", "1")] None
               [mkElement "institution" [] (Some "AMEMBASSY MOSCOW") []]]].
Proof.
  destruct (rmatch header_re (nth 6 sample_record EmptyString)) as [[e m]|] eqn:E;
    [|vm_compute in E; discriminate E].
  destruct (header_block_on_match sample_record init e m eq_refl E)
    as (cable & lines & ref & month & year & fromlist & tolist
        & Hrun & H1 & H2 & H3 & H4 & H5 & Hheader & _).
  exists cable, lines. split; [exact Hrun|]. rewrite Hheader.
  vm_compute in E. injection E as <- <-.
  vm_compute in H1, H2, H3, H4, H5.
  injection H1 as <-. injection H2 as <-. injection H3 as <-.
  injection H4 as <-. injection H5 as <-.
  vm_compute. reflexivity.
Defined.

(** * Further properties *)

Import Tree Writer.

(** ** Documents over several files *)

Lemma children_append_all (cs : list Element) (e : Element) :
  children (append_all cs e) = children e ++ cs.
Proof. reflexivity. Qed.

Lemma parseCSVFile_state (filePath : string) (reader : csvreader) (st : state) :
  snd (parseCSVFile filePath reader st)
  = match reader with
    | [] => {| root := root st; xmlString := xmlString st;
               stdout := stdout st ++ [ERROR_EMPTY filePath] |}
    | _ :: rows => rows_state rows st
    end.
Proof. destruct reader; [reflexivity|]. now rewrite parseCSVFile_rows. Qed.

(** X1. What [parseCSVFile] adds does not depend on the document it is
    given: the cables it appends, the lines it prints and the value it
    returns are those it produces on a new document, and they come after
    the cables and the lines already there. Nothing resets the document
    between files, so a second file adds to the cables of the first. *)
Theorem parse_extends_document (filePath : string) (reader : csvreader) (st : state) :
  fst (parseCSVFile filePath reader st) = fst (parseCSVFile filePath reader init)
  /\ children (root (snd (parseCSVFile filePath reader st)))
     = children (root st) ++ children (root (snd (parseCSVFile filePath reader init)))
  /\ stdout (snd (parseCSVFile filePath reader st))
     = stdout st ++ stdout (snd (parseCSVFile filePath reader init))
  /\ tag (root (snd (parseCSVFile filePath reader st))) = tag (root st)
  /\ attrib (root (snd (parseCSVFile filePath reader st))) = attrib (root st).
Proof.
  destruct reader as [|first rows].
  - simpl. rewrite app_nil_r. repeat split.
  - rewrite !parseCSVFile_rows. cbn [fst snd rows_state root stdout].
    rewrite !children_append_all. repeat split.
Qed.

Lemma in_step_parse (filePath : string) (reader : csvreader) (st : state) :
  in_step st -> in_step (snd (parseCSVFile filePath reader st)).
Proof.
  intros H. rewrite parseCSVFile_state. destruct reader as [|first rows]; [exact H|].
  unfold in_step, rows_state; cbn [root xmlString].
  destruct (parsed_rows rows) as [|l ls] eqn:E.
  - simpl map. rewrite append_all_nil. exact H.
  - now left.
Qed.

(** X2. [parseCSVFile] keeps the saved serialisation in step with the
    tree: if [xmlString] is the serialisation of the tree before the call
    (or is not set yet, the tree having no cable), the same holds after
    it. *)
Theorem parse_keeps_in_step (filePath : string) (reader : csvreader) (st : state) :
  in_step st -> in_step (snd (parseCSVFile filePath reader st)).
Proof. apply in_step_parse. Qed.

Lemma parse_keeps_in_step_witness :
  in_step (snd (parseCSVFile "cables_tiny.csv" [(1, ["id"]); (2, sample_record)] init)).
Proof.
  apply parse_keeps_in_step. right. split; reflexivity.
Defined.

(** X3. The children of a cable are always, in this order: the five
    components of the date and time or none of them, then reference,
    origin, classification, sources, header and content, one of each. The
    header has no child, or ref, month, year, from, to and info, one of
    each in this order. *)
Theorem cable_schema (csvLine : list string) (st : state) :
  List.length csvLine = 8 ->
  exists cable lines,
    parseCSVLine csvLine st
    = (Return tt,
       {| root := append cable (root st);
          xmlString := Some (append cable (root st));
          stdout := stdout st ++ lines |})
    /\ (map tag (children cable)
        = ["year"; "month"; "day"; "hour"; "minute";
           "reference"; "origin"; "classification"; "sources"; "header"; "content"]
        \/ map tag (children cable)
           = ["reference"; "origin"; "classification"; "sources"; "header"; "content"])
    /\ exists header,
         ET.findall "header" cable = [header]
         /\ (map tag (children header) = []
             \/ map tag (children header) = ["ref"; "month"; "year"; "from"; "to"; "info"]).
Proof.
  intros Hlen. exists (cable_element csvLine), (cable_lines csvLine).
  split; [now apply parseCSVLine_cable|].
  destruct (header_of_cable csvLine Hlen) as [Hh _].
  split.
  - eight_fields csvLine Hlen. unfold cable_element, field, datetime_elements; cbn [nth].
    destruct (strptime f1); [left | right]; reflexivity.
  - exists (header_element (nth 6 csvLine EmptyString)). split; [exact Hh|].
    unfold header_element. destruct (rmatch header_re _) as [[e m]|]; [right | left];
      reflexivity.
Qed.

Lemma cable_schema_witness :
  exists cable lines,
    parseCSVLine sample_record init
    = (Return tt,
       {| root := append cable (root init);
          xmlString := Some (append cable (root init));
          stdout := stdout init ++ lines |})
    /\ (map tag (children cable)
        = ["year"; "month"; "day"; "hour"; "minute";
           "reference"; "origin"; "classification"; "sources"; "header"; "content"]
        \/ map tag (children cable)
           = ["reference"; "origin"; "classification"; "sources"; "header"; "content"])
    /\ exists header,
         ET.findall "header" cable = [header]
         /\ (map tag (children header) = []
             \/ map tag (children header) = ["ref"; "month"; "year"; "from"; "to"; "info"]).
Proof. exact (cable_schema sample_record init eq_refl). Defined.

(** ** Writing the document *)

Lemma put_same (path content : string) (fs : string -> option string) :
  put path content fs path = Some content.
Proof. unfold put. now rewrite String.eqb_refl. Qed.

Lemma put_other (path content p : string) (fs : string -> option string) :
  p <> path -> put path content fs p = fs p.
Proof.
  intros H. unfold put. destruct (String.eqb p path) eqn:E; [|reflexivity].
  apply String.eqb_eq in E. contradiction.
Qed.

Lemma no_row_parsed (rows : csvreader) :
  (forall n l rest, rows = (n, l) :: rest -> List.length l <> 8) -> parsed_rows rows = [].
Proof.
  intros H. destruct rows as [|[n l] rest]; [reflexivity|]. simpl.
  destruct (Nat.eqb (List.length l) 8) eqn:E; [|reflexivity].
  apply Nat.eqb_eq in E. now specialize (H n l rest eq_refl).
Qed.

Lemma write_unset (toprettyxml : Element -> option string) (xmlFilePath : string) (w : world) :
  refuses w xmlFilePath = false ->
  xmlString (document w) = None ->
  writeToFile toprettyxml xmlFilePath w
  = (None, printed ERROR_NOT_VALID (written xmlFilePath EmptyString w)).
Proof. intros Hopen Hx. unfold writeToFile. rewrite Hopen. cbn [written document]. now rewrite Hx. Qed.


(** X4. On a new document, after a file that is empty, has one row only,
    or whose second row does not hold 8 values, [writeToFile] raises
    nothing and prints that the XML is not valid and that no file was
    generated; yet the file has been opened for writing by then: it exists
    and is empty, whatever it held before. No other file is touched. *)
Theorem write_after_empty_parse (toprettyxml : Element -> option string)
    (filePath xmlFilePath : string) (reader : csvreader) (w : world) :
  document w = init ->
  refuses w xmlFilePath = false ->
  (forall n l rest, tl reader = (n, l) :: rest -> List.length l <> 8) ->
  exists w',
    writeToFile toprettyxml xmlFilePath (parsed filePath reader w) = (None, w')
    /\ files w' xmlFilePath = Some EmptyString
    /\ last (stdout (document w')) EmptyString = ERROR_NOT_VALID
    /\ children (root (document w')) = []
    /\ forall p, p <> xmlFilePath -> files w' p = files w p.
Proof.
  intros Hdoc Hopen Hrows.
  assert (Hx : xmlString (document (parsed filePath reader w)) = None
               /\ children (root (document (parsed filePath reader w))) = []).
  { unfold parsed; cbn [document]. rewrite parseCSVFile_state, Hdoc.
    destruct reader as [|first rows]; [split; reflexivity|].
    unfold rows_state. rewrite (no_row_parsed rows Hrows). split; reflexivity. }
  destruct Hx as [Hx Hc].
  exists (printed ERROR_NOT_VALID (written xmlFilePath EmptyString (parsed filePath reader w))).
  split; [now apply write_unset|]. cbn [printed written files document stdout root].
  split; [apply put_same|]. split; [apply last_last|].
  split; [exact Hc|]. intros p Hp. now apply put_other.
Qed.

Lemma write_after_empty_parse_witness :
  exists w',
    writeToFile (fun _ => Some "<root/>") "cables_tiny.xml"
      (parsed "empty.csv" []
         {| document := init;
            files := put "cables_tiny.xml" "<root>kept</root>" (fun _ => None);
            refuses := fun _ => false |})
    = (None, w')
    /\ files w' "cables_tiny.xml" = Some EmptyString
    /\ last (stdout (document w')) EmptyString = ERROR_NOT_VALID.
Proof.
  destruct (write_after_empty_parse (fun _ => Some "<root/>") "empty.csv" "cables_tiny.xml" []
              {| document := init;
                 files := put "cables_tiny.xml" "<root>kept</root>" (fun _ => None);
                 refuses := fun _ => false |} eq_refl eq_refl)
    as (w' & Hrun & Hfile & Hlast & _).
  - intros n l rest H. discriminate H.
  - exists w'. repeat split; assumption.
Defined.





(** ** The validation of a file by the monitor *)

Import CsvMonitor.

Lemma writeToLog_run (text path : string) (w : monitor) :
  logFilePath w = Some path ->
  writeToLog text w
  = (Return tt,
     shown (now w ++ ", " ++ text ++ String LF "")%string
       (if log_writable w then logged (now w ++ ", " ++ text ++ String LF "")%string w
        else shown (ERROR_LOG path) w)).
Proof. intros H. unfold writeToLog. now rewrite H. Qed.


Lemma check_rows_true (fullFilename : string) (k : nat) (rows : csvreader) (w w' : monitor) :
  check_rows fullFilename k rows w = (Return true, w') ->
  Forall (fun row => List.length (snd row) = k) rows.
Proof.
  induction rows as [|[n l] rows IH]; [constructor|]. simpl.
  destruct (Nat.eqb (List.length l) k) eqn:E; simpl.
  - intros H. constructor; [now apply Nat.eqb_eq | now apply IH].
  - destruct (writeToLog _ w) as [[[]|e] w1]; discriminate.
Qed.

Lemma check_rows_reject (fullFilename path : string) (k n : nat) (bad : list string)
    (good rest : csvreader) (w : monitor) :
  logFilePath w = Some path ->
  Forall (fun row => List.length (snd row) = k) good ->
  List.length bad <> k ->
  check_rows fullFilename k (good ++ (n, bad) :: rest) w
  = (Return false,
     let entry := (now w ++ ", " ++ ERROR_LENGTH n fullFilename (List.length bad) k
                   ++ String LF "")%string in
     shown entry (if log_writable w then logged entry w else shown (ERROR_LOG path) w)).
Proof.
  intros Hp Hgood Hbad. induction Hgood as [|[m l] good Hl _ IH]; simpl in *.
  - apply Nat.eqb_neq in Hbad. rewrite Hbad. simpl.
    now rewrite (writeToLog_run _ path w Hp).
  - rewrite Hl, Nat.eqb_refl. exact IH.
Qed.



(** X8. When a row does not hold as many values as the first row, and the
    rows before it do, [parseCSV] returns [False] and stops there: the rows
    after it make no difference. It logs one entry, the time followed by
    the line number of that row, the file, the length of the row and the
    length of the first row. The entry is always printed; it is appended to
    the log file when the log file can be written, and otherwise a line
    saying that the log file cannot be written is printed before it. *)
Theorem parseCSV_reports_first_odd_row (fullFilename path : string)
    (first : nat * list string) (good rest : csvreader) (n : nat) (bad : list string)
    (w : monitor) :
  logFilePath w = Some path ->
  Forall (fun row => List.length (snd row) = List.length (snd first)) good ->
  List.length bad <> List.length (snd first) ->
  let entry := (now w ++ ", "
                ++ ERROR_LENGTH n fullFilename (List.length bad) (List.length (snd first))
                ++ String LF "")%string in
  exists w',
    parseCSV fullFilename (first :: good ++ (n, bad) :: rest) w = (Return false, w')
    /\ logFile w' = logFile w ++ (if log_writable w then [entry] else [])
    /\ console w' = console w ++ (if log_writable w then [] else [ERROR_LOG path]) ++ [entry]
    /\ parseCSV fullFilename (first :: good ++ (n, bad) :: rest) w
       = parseCSV fullFilename (first :: good ++ [(n, bad)]) w.
Proof.
  intros Hp Hgood Hbad entry. destruct first as [n0 firstLine]. simpl in *.
  rewrite !(check_rows_reject fullFilename path _ n bad good _ w Hp Hgood Hbad).
  eexists. split; [reflexivity|]. fold entry.
  destruct (log_writable w); cbn [shown logged logFile console app];
    rewrite ?app_nil_r, <- ?app_assoc; repeat split.
Qed.

Lemma parseCSV_reports_first_odd_row_witness :
  exists w',
    parseCSV "bad.csv" [(1, ["a"; "b"]); (2, ["c"; "d"]); (3, ["e"]); (4, ["f"; "g"])]
      {| logFilePath := Some "monitor.log"; now := "Mon, 01 Jan 2024 00:00:00";
         log_writable := false; logFile := []; console := [] |}
    = (Return false, w')
    /\ logFile w' = []
    /\ List.length (console w') = 2.
Proof.
  destruct (parseCSV_reports_first_odd_row "bad.csv" "monitor.log" (1, ["a"; "b"])
              [(2, ["c"; "d"])] [(4, ["f"; "g"])] 3 ["e"]
              {| logFilePath := Some "monitor.log"; now := "Mon, 01 Jan 2024 00:00:00";
                 log_writable := false; logFile := []; console := [] |} eq_refl)
    as (w' & Hrun & Hlog & Hcon & _).
  - repeat constructor.
  - simpl. discriminate.
  - exists w'. split; [exact Hrun|]. split; [exact Hlog|]. rewrite Hcon. reflexivity.
Defined.

Lemma uniform_rows_all_parsed (rows : csvreader) :
  Forall (fun row => List.length (snd row) = 8) rows ->
  parsed_rows rows = map snd rows /\ malformed_row rows = None.
Proof.
  induction 1 as [|[n l] rows Hl _ [IH1 IH2]]; [split; reflexivity|]. simpl in *.
  rewrite Hl. simpl. now rewrite IH1, IH2.
Qed.

Lemma all_lines_no_error (ls : list (list string)) :
  errors (concat (map cable_lines ls)) = 0.
Proof.
  induction ls as [|l ls IH]; [reflexivity|]. simpl.
  now rewrite errors_app, cable_lines_no_error, IH.
Qed.

(** X9. A file that [parseCSV] accepts and whose first row holds 8 values
    is parsed to the end by [parseCSVFile]: it returns [None], prints no
    error line, and appends one cable for each row after the first, in the
    order of the rows, each with the identifier of its row. *)
Theorem accepted_file_is_parsed_whole (fullFilename : string) (first : nat * list string)
    (rest : csvreader) (w w' : monitor) (st : state) :
  parseCSV fullFilename (first :: rest) w = (Return true, w') ->
  List.length (snd first) = 8 ->
  exists cables lines,
    parseCSVFile fullFilename (first :: rest) st
    = (Return None,
       {| root := append_all cables (root st);
          xmlString := match rest with [] => xmlString st
                                     | _ :: _ => Some (append_all cables (root st)) end;
          stdout := stdout st ++ lines |})
    /\ errors lines = 0
    /\ map attrib cables
       = map (fun row => [("idInSource", nth 0 (snd row) EmptyString)]) rest.
Proof.
  intros Hrun Hlen. destruct first as [n0 firstLine]. simpl in *.
  apply check_rows_true in Hrun. rewrite Hlen in Hrun.
  destruct (uniform_rows_all_parsed rest Hrun) as [Hp Hm].
  exists (map cable_element (map snd rest)), (concat (map cable_lines (map snd rest))).
  rewrite parseCSVFile_rows. unfold rows_state, rows_lines. rewrite Hp, Hm, app_nil_r.
  split.
  - destruct rest; reflexivity.
  - split; [apply all_lines_no_error|]. rewrite !map_map. reflexivity.
Qed.

Lemma accepted_file_is_parsed_whole_witness :
  exists cables lines,
    parseCSVFile "cables_tiny.csv" [(1, sample_record); (2, sample_record)] init
    = (Return None,
       {| root := append_all cables (root init);
          xmlString := Some (append_all cables (root init));
          stdout := stdout init ++ lines |})
    /\ errors lines = 0
    /\ map attrib cables = [[("idInSource", "1")]].
Proof.
  exact (accepted_file_is_parsed_whole "cables_tiny.csv" (1, sample_record)
           [(2, sample_record)]
           {| logFilePath := Some "monitor.log"; now := "Mon, 01 Jan 2024 00:00:00";
              log_writable := true; logFile := []; console := [] |}
           _ init eq_refl eq_refl).
Defined.

(** ** What the patterns recognise *)

Lemma run_Str (p : string) :
  forall pos s caps k,
    run (Str p) pos s caps k
    = match after_prefix p s with
      | Some rest => k (pos + String.length p) rest caps
      | None => None
      end.
Proof.
  induction p as [|a p IH]; intros pos s caps k; simpl.
  - now rewrite Nat.add_0_r.
  - destruct s as [|b s]; [reflexivity|]. destruct (Ascii.eqb a b); [|reflexivity].
    rewrite IH. now rewrite Nat.add_succ_r.
Qed.

(** A greedy repetition that can run to the end of the text does so, when
    what follows accepts there. *)
Lemma run_Plus_to_end (p : ascii -> bool) (s : string) :
  forall pos caps k res,
    all_chars p s = true -> s <> EmptyString ->
    k (pos + String.length s) EmptyString caps = Some res ->
    run (Plus p) pos s caps k = Some res.
Proof.
  induction s as [|d s IH]; intros pos caps k res Hall Hne Hk; [congruence|].
  simpl in Hall. apply andb_true_iff in Hall. destruct Hall as [Hd Hall].
  simpl. rewrite Hd. destruct s as [|d' s'].
  - simpl in Hk. rewrite Nat.add_1_r in Hk. exact Hk.
  - simpl in Hk. rewrite Nat.add_succ_r in Hk.
    specialize (IH (S pos) caps k res Hall ltac:(discriminate) Hk).
    simpl in IH. simpl. now rewrite IH.
Qed.

(** What a repetition consumed, whatever follows. *)
Lemma run_Plus_inv (p : ascii -> bool) (s : string) :
  forall pos caps k res,
    run (Plus p) pos s caps k = Some res ->
    exists s1 s2,
      s = (s1 ++ s2)%string /\ s1 <> EmptyString /\ all_chars p s1 = true
      /\ k (pos + String.length s1) s2 caps = Some res.
Proof.
  induction s as [|d s IH]; intros pos caps k res H; [discriminate|].
  simpl in H. destruct (p d) eqn:Hd; [|discriminate].
  match type of H with
  | match ?more with Some _ => _ | None => _ end = _ => destruct more as [res1|] eqn:E
  end.
  - injection H as ->. apply IH in E. destruct E as (s1 & s2 & -> & _ & Hall & Hk).
    exists (String d s1), s2. split; [reflexivity|]. split; [discriminate|]. split.
    + simpl. now rewrite Hd.
    + simpl. now rewrite Nat.add_succ_r.
  - exists (String d EmptyString), s. split; [reflexivity|]. split; [discriminate|]. split.
    + simpl. now rewrite Hd.
    + simpl. now rewrite Nat.add_1_r.
Qed.

Lemma run_Plus_empty (p : ascii -> bool) (pos : nat) (caps : captures)
    (k : nat -> string -> captures -> outcome) :
  run (Plus p) pos EmptyString caps k = None.
Proof. reflexivity. Qed.

Lemma length_append (s1 s2 : string) :
  String.length (s1 ++ s2) = String.length s1 + String.length s2.
Proof. induction s1 as [|c s1 IH]; [reflexivity|]. simpl. now rewrite IH. Qed.

Lemma substring_all (s : string) : substring 0 (String.length s) s = s.
Proof. induction s as [|c s IH]; [reflexivity|]. simpl. now rewrite IH. Qed.

Lemma substring_prefix (s1 s2 : string) :
  substring 0 (String.length s1) (s1 ++ s2) = s1.
Proof.
  induction s1 as [|c s1 IH]; simpl.
  - destruct s2; reflexivity.
  - now rewrite IH.
Qed.

Lemma contains_dot (s : string) : contains LF s = false -> all_chars dot s = true.
Proof.
  induction s as [|c s IH]; [reflexivity|]. cbn [contains all_chars]. intros H.
  apply orb_false_iff in H. destruct H as [Hc Hs]. unfold dot at 1.
  rewrite Ascii.eqb_sym, Hc. cbn [negb andb]. now apply IH.
Qed.

Lemma after_prefix_app (p s rest : string) :
  after_prefix p s = Some rest -> s = (p ++ rest)%string.
Proof.
  revert s; induction p as [|a p IH]; intros s H; simpl in *.
  - now injection H as ->.
  - destruct s as [|b s]; [discriminate|]. destruct (Ascii.eqb a b) eqn:E; [|discriminate].
    apply Ascii.eqb_eq in E. subst b. f_equal. now apply IH.
Qed.

Lemma after_prefix_contains (c : ascii) (p s rest : string) :
  after_prefix p s = Some rest -> contains c s = false -> contains c rest = false.
Proof.
  revert s; induction p as [|a p IH]; intros s H Hc; simpl in *.
  - now injection H as <-.
  - destruct s as [|b s]; [discriminate|]. destruct (Ascii.eqb a b); [|discriminate].
    cbn [contains] in Hc. apply orb_false_iff in Hc. now apply IH with (s := s).
Qed.

Lemma run_Seq (r1 r2 : regex) (pos : nat) (s : string) (caps : captures)
    (k : nat -> string -> captures -> outcome) :
  run (Seq r1 r2) pos s caps k
  = run r1 pos s caps (fun pos' s' caps' => run r2 pos' s' caps' k).
Proof. reflexivity. Qed.

Lemma run_Group (n : nat) (r : regex) (pos : nat) (s : string) (caps : captures)
    (k : nat -> string -> captures -> outcome) :
  run (Group n r) pos s caps k
  = run r pos s caps
      (fun pos' s' caps' => k pos' s' ((n, substring 0 (pos' - pos) s) :: caps')).
Proof. reflexivity. Qed.

(** The group of a pattern that is a fixed prefix followed by [(.+)]. *)
Lemma run_prefix_rest (p line : string) (pos : nat) :
  contains LF line = false ->
  run (Str p >> Group 1 (Plus dot))%re pos line [] accept
  = match rest_after p line with
    | Some rest => Some (pos + String.length line, [(1, rest)])
    | None => None
    end.
Proof.
  intros Hfree. rewrite run_Seq, run_Str. unfold rest_after.
  destruct (after_prefix p line) as [rest|] eqn:E; [|reflexivity].
  rewrite run_Group.
  destruct rest as [|c r]; [reflexivity|].
  pose proof (after_prefix_app _ _ _ E) as Hline.
  pose proof (after_prefix_contains LF _ _ _ E Hfree) as Hrest.
  apply run_Plus_to_end.
  - now apply contains_dot.
  - discriminate.
  - unfold accept. rewrite Hline, length_append.
    rewrite Nat.add_assoc. f_equal. f_equal. f_equal. f_equal.
    replace (pos + String.length p + String.length (String c r) - (pos + String.length p))
      with (String.length (String c r)) by lia.
    apply substring_all.
Qed.

Lemma run_Str_Lit (a : string) (c : ascii) (r : regex) :
  forall pos s caps k,
    run (Str a >> Lit c >> r)%re pos s caps k
    = run (Str (a ++ String c EmptyString) >> r)%re pos s caps k.
Proof.
  induction a as [|a0 a IH]; intros pos s caps k.
  - reflexivity.
  - change (run (Str (String a0 a) >> Lit c >> r)%re pos s caps k)
      with (match s with
            | String d s' =>
                if Ascii.eqb a0 d then run (Str a >> Lit c >> r)%re (S pos) s' caps k else None
            | EmptyString => None
            end).
    change (run (Str (String a0 a ++ String c EmptyString) >> r)%re pos s caps k)
      with (match s with
            | String d s' =>
                if Ascii.eqb a0 d
                then run (Str (a ++ String c EmptyString) >> r)%re (S pos) s' caps k
                else None
            | EmptyString => None
            end).
    destruct s as [|d s']; [reflexivity|]. destruct (Ascii.eqb a0 d); [|reflexivity].
    apply IH.
Qed.

Lemma run_Bol (r : regex) (s : string) (caps : captures)
    (k : nat -> string -> captures -> outcome) :
  run (Bol >> r)%re 0 s caps k = run r 0 s caps k.
Proof. reflexivity. Qed.

Lemma run_Alt_Seq (r1 r2 r : regex) (pos : nat) (s : string) (caps : captures)
    (k : nat -> string -> captures -> outcome) :
  run ((r1 // r2) >> r)%re pos s caps k
  = match run (r1 >> r)%re pos s caps k with
    | Some res => Some res
    | None => run (r2 >> r)%re pos s caps k
    end.
Proof. reflexivity. Qed.

Lemma matched_prefix (p line : string) (r : regex) :
  contains LF line = false ->
  (forall caps k, run r 0 line caps k
                  = run (Str p >> Group 1 (Plus dot))%re 0 line caps k) ->
  matched (Bol >> r)%re line = rest_after p line.
Proof.
  intros Hfree Hr. unfold matched, rmatch. rewrite run_Bol, Hr, (run_prefix_rest p line 0 Hfree).
  destruct (rest_after p line); reflexivity.
Qed.

Lemma matched_tags (line : string) :
  contains LF line = false -> matched tags_re line = rest_after "TAGS: " line.
Proof. intros H. apply matched_prefix; [exact H | reflexivity]. Qed.

Lemma matched_ref (line : string) :
  contains LF line = false -> matched ref_re line = rest_after "REF: " line.
Proof.
  intros H. apply matched_prefix; [exact H|]. intros caps k.
  apply (run_Str_Lit "REF:" " ").
Qed.

Lemma matched_subject (line : string) :
  contains LF line = false ->
  matched subject_re line
  = match rest_after "SUBJECT: " line with
    | Some rest => Some rest
    | None => rest_after "SUBJ: " line
    end.
Proof.
  intros H. unfold matched, rmatch, subject_re. rewrite run_Bol, run_Alt_Seq.
  rewrite (run_Str_Lit "SUBJECT:" " "), (run_Str_Lit "SUBJ:" " ").
  change ("SUBJECT:" ++ " ")%string with "SUBJECT: ".
  change ("SUBJ:" ++ " ")%string with "SUBJ: ".
  rewrite !(run_prefix_rest _ line 0 H).
  destruct (rest_after "SUBJECT: " line); [reflexivity|].
  destruct (rest_after "SUBJ: " line); reflexivity.
Qed.

Lemma after_prefix_of_app (p rest : string) : after_prefix p (p ++ rest) = Some rest.
Proof. induction p as [|a p IH]; simpl; [reflexivity|]. now rewrite Ascii.eqb_refl. Qed.

Lemma split_free (sep : ascii) (s x : string) :
  In x (split sep s) -> contains sep x = false.
Proof.
  revert x; induction s as [|c s IH]; intros x Hin.
  - destruct Hin as [<-|[]]. reflexivity.
  - cbn [split] in Hin. pose proof (split_not_nil sep s) as Hne.
    destruct (Ascii.eqb c sep) eqn:E.
    + destruct Hin as [<-|Hin]; [reflexivity | now apply IH].
    + destruct (split sep s) as [|h t]; [congruence|].
      destruct Hin as [<-|Hin].
      * cbn [contains]. rewrite Ascii.eqb_sym, E. apply IH. now left.
      * apply IH. now right.
Qed.

Lemma run_Opt_Seq (r1 r : regex) (pos : nat) (s : string) (caps : captures)
    (k : nat -> string -> captures -> outcome) :
  run (Opt r1 >> r)%re pos s caps k
  = match run (r1 >> r)%re pos s caps k with
    | Some res => Some res
    | None => run r pos s caps k
    end.
Proof. reflexivity. Qed.

Lemma run_Class_Seq (p : ascii -> bool) (r : regex) (pos : nat) (s : string)
    (caps : captures) (k : nat -> string -> captures -> outcome) :
  run (Class p >> r)%re pos s caps k
  = match s with
    | String d s' => if p d then run r (S pos) s' caps k else None
    | EmptyString => None
    end.
Proof. reflexivity. Qed.

(** The end of the E.O. pattern, inside its group that starts at 0. *)
Lemma run_O_rest (line s : string) (pos : nat) :
  contains LF s = false ->
  run (Str "O. " >> Plus dot)%re pos s []
    (fun pos' s' caps' => accept pos' s' ((1, substring 0 (pos' - 0) line) :: caps'))
  = if is_some (rest_after "O. " s)
    then Some (pos + String.length s, [(1, substring 0 (pos + String.length s) line)])
    else None.
Proof.
  intros Hfree. rewrite run_Seq, run_Str. unfold rest_after.
  destruct (after_prefix "O. " s) as [rest|] eqn:E; [|reflexivity].
  destruct rest as [|c r]; [reflexivity|]. cbn [is_some].
  pose proof (after_prefix_app _ _ _ E) as Hs.
  pose proof (after_prefix_contains LF _ _ _ E Hfree) as Hrest.
  apply run_Plus_to_end.
  - now apply contains_dot.
  - discriminate.
  - unfold accept. rewrite Hs, length_append, Nat.add_assoc, Nat.sub_0_r. reflexivity.
Qed.

Lemma space_is_not_O (c : ascii) : isspace c = true -> Ascii.eqb "O" c = false.
Proof.
  intros H. destruct (Ascii.eqb "O" c) eqn:E; [|reflexivity].
  apply Ascii.eqb_eq in E. subst c. discriminate H.
Qed.

Lemma matched_eo (line : string) :
  contains LF line = false ->
  matched eo_re line = if is_eo_line line then Some line else None.
Proof.
  intros Hfree. unfold matched, rmatch, eo_re, is_eo_line.
  rewrite run_Bol, run_Group, run_Seq, run_Str.
  destruct (after_prefix "E." line) as [rest|] eqn:E; [|reflexivity].
  pose proof (after_prefix_app _ _ _ E) as Hline.
  pose proof (after_prefix_contains LF _ _ _ E Hfree) as Hrest.
  rewrite run_Opt_Seq, run_Class_Seq.
  destruct rest as [|c r].
  - rewrite (run_O_rest line EmptyString _ Hrest). reflexivity.
  - assert (Hr : contains LF r = false)
      by (cbn [contains] in Hrest; now apply orb_false_iff in Hrest).
    assert (Hend : substring 0 (0 + String.length "E." + String.length (String c r)) line
                   = line).
    { rewrite Hline. rewrite Nat.add_0_l, <- length_append. apply substring_all. }
    destruct (isspace c) eqn:Hc.
    + rewrite (run_O_rest line r _ Hr).
      destruct (is_some (rest_after "O. " r)) eqn:Hsome.
      * cbn [group Nat.eqb]. f_equal.
        replace (S (0 + String.length "E.") + String.length r)
          with (0 + String.length "E." + String.length (String c r)) by (simpl; lia).
        exact Hend.
      * rewrite (run_O_rest line (String c r) _ Hrest).
        unfold rest_after. cbn [after_prefix]. rewrite (space_is_not_O c Hc). reflexivity.
    + rewrite (run_O_rest line (String c r) _ Hrest).
      destruct (is_some (rest_after "O. " (String c r))); [|reflexivity].
      cbn [group Nat.eqb]. f_equal. exact Hend.
Qed.

Lemma rest_after_iff (p s : string) :
  is_some (rest_after p s) = true
  <-> exists rest, rest <> EmptyString /\ s = (p ++ rest)%string.
Proof.
  unfold rest_after. split.
  - destruct (after_prefix p s) as [[|c r]|] eqn:E; try discriminate. intros _.
    exists (String c r). split; [discriminate | now apply after_prefix_app].
  - intros (rest & Hne & ->). rewrite after_prefix_of_app.
    destruct rest; [congruence | reflexivity].
Qed.

Lemma is_eo_line_iff (line : string) :
  is_eo_line line = true
  <-> exists rest,
        rest <> EmptyString
        /\ (line = ("E.O. " ++ rest)%string
            \/ exists c, isspace c = true
                         /\ line = ("E." ++ String c ("O. " ++ rest))%string).
Proof.
  unfold is_eo_line. split.
  - destruct (after_prefix "E." line) as [[|c r]|] eqn:E; try discriminate.
    apply after_prefix_app in E. destruct (isspace c) eqn:Hc; intros H.
    + apply rest_after_iff in H. destruct H as (rest & Hne & ->).
      exists rest. split; [exact Hne|]. right. exists c. split; [exact Hc | exact E].
    + apply rest_after_iff in H. destruct H as (rest & Hne & H).
      exists rest. split; [exact Hne|]. left. rewrite E, H. reflexivity.
  - intros (rest & Hne & [->|(c & Hc & ->)]).
    + change ("E.O. " ++ rest)%string with ("E." ++ String "O" (". " ++ rest))%string.
      rewrite after_prefix_of_app.
      change (isspace "O") with false. cbv iota.
      apply rest_after_iff. exists rest. split; [exact Hne | reflexivity].
    + rewrite after_prefix_of_app, Hc.
      apply rest_after_iff. exists rest. split; [exact Hne | reflexivity].
Qed.

(** X10. What the four line patterns recognise, for every line of every
    content text. The TAGS pattern matches a line that starts with TAGS:
    and a blank and goes on, and its group is the rest of the line; the
    same for REF: and a blank, and for SUBJECT: or SUBJ: and a blank. The
    E.O. pattern matches a line that starts with E.O. or with E. and O.
    separated by one character of white space, then a blank and at least
    one more character, and its group is the whole line. *)
Theorem recognised_lines (contentText line : string) :
  In line (split LF contentText) ->
  matched tags_re line = rest_after "TAGS: " line
  /\ matched ref_re line = rest_after "REF: " line
  /\ matched subject_re line
     = match rest_after "SUBJECT: " line with
       | Some rest => Some rest
       | None => rest_after "SUBJ: " line
       end
  /\ matched eo_re line = (if is_eo_line line then Some line else None)
  /\ (is_eo_line line = true
      <-> exists rest,
            rest <> EmptyString
            /\ (line = ("E.O. " ++ rest)%string
                \/ exists c, isspace c = true
                             /\ line = ("E." ++ String c ("O. " ++ rest))%string))
  /\ (forall p, is_some (rest_after p line) = true
                <-> exists rest, rest <> EmptyString /\ line = (p ++ rest)%string).
Proof.
  intros Hin. apply split_free in Hin.
  split; [now apply matched_tags|]. split; [now apply matched_ref|].
  split; [now apply matched_subject|]. split; [now apply matched_eo|].
  split; [apply is_eo_line_iff|]. intros p. apply rest_after_iff.
Qed.

Lemma recognised_lines_witness :
  matched tags_re "TAGS: a, b" = Some "a, b"
  /\ matched subject_re "SUBJECT: Hello" = Some "Hello".
Proof.
  assert (H1 : In "TAGS: a, b" (split LF subject_first_text)) by (right; left; reflexivity).
  assert (H2 : In "SUBJECT: Hello" (split LF subject_first_text)) by (left; reflexivity).
  destruct (recognised_lines subject_first_text "TAGS: a, b" H1) as (Ht & _).
  destruct (recognised_lines subject_first_text "SUBJECT: Hello" H2) as (_ & _ & Hs & _).
  split; [rewrite Ht | rewrite Hs]; reflexivity.
Defined.

(** ** What the texts of a document can hold *)

Lemma tag_tail_keeps_groups (pos : nat) (s : string) (caps : captures) (e : nat)
    (caps' : captures) :
  run ((Lit "," >> Class isspace) // Eol)%re pos s caps accept = Some (e, caps') ->
  caps' = caps.
Proof.
  cbn [run]. unfold accept.
  destruct s as [|d s]; cbn [at_end].
  - intros H. now injection H as _ <-.
  - destruct (Ascii.eqb "," d).
    + destruct s as [|d' s'].
      * destruct (Ascii.eqb d LF); [|discriminate]. intros H. now injection H as _ <-.
      * destruct (isspace d').
        -- intros H. now injection H as _ <-.
        -- discriminate.
    + destruct s as [|d' s'].
      * destruct (Ascii.eqb d LF); [|discriminate]. intros H. now injection H as _ <-.
      * discriminate.
Qed.

(** A match of the tag pattern sets its group to a non-empty run of word
    characters. *)
Lemma tag_match_word (pos : nat) (s : string) (e : nat) (caps : captures) :
  run tag_re pos s [] accept = Some (e, caps) ->
  exists t, group caps 1 = Some t /\ word t = true.
Proof.
  unfold tag_re. rewrite run_Seq, run_Group. intros H.
  apply run_Plus_inv in H. destruct H as (s1 & s2 & Hs & Hne & Hall & H).
  apply tag_tail_keeps_groups in H. subst caps s.
  exists s1. split.
  - cbn [group Nat.eqb]. f_equal.
    replace (pos + String.length s1 - pos) with (String.length s1) by lia.
    apply substring_prefix.
  - unfold word. rewrite Hall, andb_true_r.
    destruct s1; [congruence | reflexivity].
Qed.

Lemma findall_at_words (s : string) :
  forall skip pos, Forall (fun t => word t = true) (findall_at tag_re skip pos s).
Proof.
  induction s as [|c s IH]; intros skip pos.
  - cbn [findall_at]. destruct skip as [|skip]; [|constructor].
    destruct (run tag_re pos EmptyString [] accept) as [[e caps]|] eqn:E; [|constructor].
    destruct (tag_match_word _ _ _ _ E) as (t & -> & Ht). repeat constructor. exact Ht.
  - cbn [findall_at]. destruct skip as [|skip]; [|apply IH].
    destruct (run tag_re pos (String c s) [] accept) as [[e caps]|] eqn:E; [|apply IH].
    destruct (tag_match_word _ _ _ _ E) as (t & -> & Ht). constructor; [exact Ht | apply IH].
Qed.

Lemma findall_words (v : string) : Forall (fun t => word t = true) (Re.findall tag_re v).
Proof. apply findall_at_words. Qed.

(** Trimming. *)

Lemma rstrip_cons (c : ascii) (s : string) :
  rstrip (String c s)
  = match rstrip s with
    | EmptyString => if isspace c then EmptyString else String c EmptyString
    | String a b => String c (String a b)
    end.
Proof. reflexivity. Qed.

Lemma rstrip_rstrip (s : string) : rstrip (rstrip s) = rstrip s.
Proof.
  induction s as [|c s IH]; [reflexivity|]. rewrite rstrip_cons.
  destruct (rstrip s) as [|c' r] eqn:E.
  - destruct (isspace c) eqn:Hc; [reflexivity|]. rewrite rstrip_cons. cbn [rstrip].
    now rewrite Hc.
  - rewrite rstrip_cons, IH. reflexivity.
Qed.

Lemma lstrip_head (s : string) :
  lstrip s = EmptyString \/ exists c t, lstrip s = String c t /\ isspace c = false.
Proof.
  induction s as [|c s IH]; [now left|]. cbn [lstrip].
  destruct (isspace c) eqn:Hc; [exact IH|]. right. now exists c, s.
Qed.

Lemma rstrip_head (c : ascii) (t : string) :
  isspace c = false -> exists t', rstrip (String c t) = String c t'.
Proof.
  intros Hc. rewrite rstrip_cons. destruct (rstrip t) as [|c' r].
  - rewrite Hc. now exists EmptyString.
  - now exists (String c' r).
Qed.

Lemma strip_strip (s : string) : strip (strip s) = strip s.
Proof.
  unfold strip. destruct (lstrip_head s) as [H|(c & t & H & Hc)]; rewrite H.
  - reflexivity.
  - destruct (rstrip_head c t Hc) as (t' & Ht). rewrite Ht at 1.
    cbn [lstrip]. rewrite Hc, <- Ht. apply rstrip_rstrip.
Qed.

Lemma trimmed_strip (s : string) : trimmed (strip s) = true.
Proof. unfold trimmed. rewrite strip_strip. apply String.eqb_refl. Qed.

Lemma contains_lstrip (c : ascii) (s : string) :
  contains c s = false -> contains c (lstrip s) = false.
Proof.
  induction s as [|d s IH]; [reflexivity|]. cbn [lstrip contains]. intros H.
  apply orb_false_iff in H. destruct H as [Hd Hs].
  destruct (isspace d); [now apply IH|]. cbn [contains]. now rewrite Hd, Hs.
Qed.

Lemma contains_rstrip (c : ascii) (s : string) :
  contains c s = false -> contains c (rstrip s) = false.
Proof.
  induction s as [|d s IH]; [reflexivity|]. rewrite rstrip_cons. cbn [contains]. intros H.
  apply orb_false_iff in H. destruct H as [Hd Hs]. specialize (IH Hs).
  destruct (rstrip s) as [|d' r].
  - destruct (isspace d); [reflexivity|]. cbn [contains]. now rewrite Hd.
  - cbn [contains] in *. now rewrite Hd, IH.
Qed.

Lemma contains_strip (c : ascii) (s : string) :
  contains c s = false -> contains c (strip s) = false.
Proof. intros H. unfold strip. now apply contains_rstrip, contains_lstrip. Qed.

Lemma every_leaves (P : Element -> bool) (t : string) (g : string -> string)
    (l : list string) :
  (forall v, In v l -> P (leaf t (g v)) = true) ->
  forallb (every P) (map (fun v => leaf t (g v)) l) = true.
Proof.
  intros H. apply forallb_forall. intros e He. apply in_map_iff in He.
  destruct He as (v & <- & Hv). specialize (H v Hv). unfold leaf in *.
  cbn [every forallb]. now rewrite H.
Qed.

Lemma every_map (P : Element -> bool) (f : string -> Element) (l : list string) :
  (forall v, In v l -> every P (f v) = true) ->
  forallb (every P) (map f l) = true.
Proof.
  intros H. apply forallb_forall. intros e He. apply in_map_iff in He.
  destruct He as (v & <- & Hv). now apply H.
Qed.

Ltac cable_cases l :=
  unfold cable_element, datetime_elements, sources_element, header_element,
    content_element, content_fields, extract, institution_list, tags_element,
    eoline_element, subject_element, ref_element;
  destruct (strptime (field l 1));
  destruct (rmatch header_re (field l 6)) as [[?e ?m]|];
  destruct (scan eo_re (split LF (field l 7))) as [[?v ?rest]|];
  match goal with
  | |- context [scan tags_re ?cur] => destruct (scan tags_re cur) as [[?v ?rest]|]
  end;
  match goal with
  | |- context [scan subject_re ?cur] => destruct (scan subject_re cur) as [[?v ?rest]|]
  end;
  match goal with
  | |- context [scan ref_re ?cur] => destruct (scan ref_re cur) as [[?v ?rest]|]
  end.

Lemma every_cable_count (l : list string) : every count_agrees (cable_element l) = true.
Proof.
  cable_cases l.
  all: cbn [every forallb app fst snd leaf count_agrees attribute attrib children
            String.eqb Ascii.eqb Bool.eqb andb List.length].
  all: rewrite ?length_map, ?String.eqb_refl.
  all: rewrite ?every_map by (intros; reflexivity).
  all: reflexivity.
Qed.

Lemma every_cable_words (l : list string) : every tag_is_word (cable_element l) = true.
Proof.
  assert (T : forall v, forallb (every tag_is_word) (map (leaf "tag") (Re.findall tag_re v))
                        = true).
  { intros v. apply every_map. intros t Ht.
    pose proof (findall_words v) as W. rewrite Forall_forall in W.
    cbn [every leaf forallb tag_is_word tagged tag text_is text String.eqb Ascii.eqb
         Bool.eqb andb]. now rewrite (W t Ht). }
  cable_cases l.
  all: cbn [every forallb app fst snd leaf tag_is_word tagged tag text_is text
            String.eqb Ascii.eqb Bool.eqb andb].
  all: rewrite ?T.
  all: rewrite ?every_map by (intros; reflexivity).
  all: reflexivity.
Qed.

Lemma every_cable_clean (l : list string) : every clean_text (cable_element l) = true.
Proof.
  assert (S : forallb (every clean_text) (map (leaf "source") (sources_list (field l 5)))
              = true).
  { apply every_map. intros v Hv. unfold sources_list in Hv.
    destruct (String.eqb (field l 5) ""); [destruct Hv|]. apply split_free in Hv.
    cbn [every leaf forallb]. unfold clean_text, tagged, text_is, free_of.
    cbn [tag text String.eqb Ascii.eqb Bool.eqb andb]. now rewrite Hv. }
  assert (I : forall g,
             forallb (every clean_text)
               (map (fun current => leaf "institution" (strip current)) (institutions g))
             = true).
  { intros g. apply every_map. intros v Hv. unfold institutions in Hv.
    destruct g as [t|]; [|destruct Hv]. apply split_free in Hv.
    cbn [every leaf forallb]. unfold clean_text, tagged, text_is, free_of.
    cbn [tag text String.eqb Ascii.eqb Bool.eqb andb].
    now rewrite trimmed_strip, (contains_strip LF v Hv). }
  assert (E : forall (f : string -> Element) (ls : list string),
             (forall v, every clean_text (f v) = true) ->
             forallb (every clean_text) (map f ls) = true).
  { intros f ls H. apply every_map. intros v _. apply H. }
  cable_cases l.
  all: cbn [every forallb app fst snd leaf].
  all: rewrite ?S, ?I.
  all: rewrite ?(E (leaf "tag")) by reflexivity.
  all: unfold clean_text, tagged, text_is.
  all: cbn [tag text String.eqb Ascii.eqb Bool.eqb andb].
  all: rewrite ?trimmed_strip.
  all: reflexivity.
Qed.

Lemma new_cables_every (P : Element -> bool) :
  (forall l, every P (cable_element l) = true) ->
  forall filePath reader st,
    exists cables,
      children (root (snd (parseCSVFile filePath reader st))) = children (root st) ++ cables
      /\ forallb (every P) cables = true.
Proof.
  intros H filePath reader st. rewrite parseCSVFile_state.
  destruct reader as [|first rows].
  - exists []. split; [simpl; now rewrite app_nil_r | reflexivity].
  - exists (map cable_element (parsed_rows rows)). split; [reflexivity|].
    apply forallb_forall. intros c Hc. apply in_map_iff in Hc.
    destruct Hc as (l & <- & _). apply H.
Qed.

(** X11. In every cable [parseCSVFile] appends, each element that carries
    a count (sources, tags, from, to, info) carries the number of its
    children. *)
Theorem counts_agree_everywhere (filePath : string) (reader : csvreader) (st : state) :
  exists cables,
    children (root (snd (parseCSVFile filePath reader st))) = children (root st) ++ cables
    /\ forallb (every count_agrees) cables = true.
Proof. apply new_cables_every, every_cable_count. Qed.

(** X12. In every cable [parseCSVFile] appends, each tag element holds a
    non-empty run of word characters: no blank, no comma, no empty tag. *)
Theorem tags_are_words (filePath : string) (reader : csvreader) (st : state) :
  exists cables,
    children (root (snd (parseCSVFile filePath reader st))) = children (root st) ++ cables
    /\ forallb (every tag_is_word) cables = true.
Proof. apply new_cables_every, every_cable_words. Qed.

(** X13. In every cable [parseCSVFile] appends, no source holds a bar, no
    institution holds a line feed, and the institutions, the E.O. line,
    the subject and both refs have no white space at either end. *)
Theorem texts_are_clean (filePath : string) (reader : csvreader) (st : state) :
  exists cables,
    children (root (snd (parseCSVFile filePath reader st))) = children (root st) ++ cables
    /\ forallb (every clean_text) cables = true.
Proof. apply new_cables_every, every_cable_clean. Qed.

(** ** The order of the content fields *)

Lemma scan_first (re : regex) (pre post : list string) (line v : string) :
  found_in re pre = false ->
  matched re line = Some v ->
  scan re (pre ++ line :: post) = Some (v, post).
Proof.
  intros Hpre Hm. induction pre as [|l pre IH]; cbn [app scan].
  - unfold matched in Hm. destruct (rmatch re line) as [[e m]|]; [|discriminate].
    unfold captured. now rewrite Hm.
  - cbn [found_in existsb] in Hpre. apply orb_false_iff in Hpre.
    destruct Hpre as [Hl Hpre]. destruct (rmatch re l) as [[e m]|]; [discriminate|].
    now apply IH.
Qed.

Lemma scan_none (re : regex) (cursor : list string) :
  found_in re cursor = false -> scan re cursor = None.
Proof. intros H. rewrite scan_found in H. now destruct (scan re cursor). Qed.

Lemma content_fields_in_order (contentText : string) (l0 l1 l2 l3 l4 : list string)
    (eo tg sj rf tags subject reference : string) :
  split LF contentText = l0 ++ eo :: l1 ++ tg :: l2 ++ sj :: l3 ++ rf :: l4 ->
  found_in eo_re l0 = false -> is_eo_line eo = true ->
  found_in tags_re l1 = false -> rest_after "TAGS: " tg = Some tags ->
  found_in subject_re l2 = false ->
  match rest_after "SUBJECT: " sj with
  | Some rest => Some rest
  | None => rest_after "SUBJ: " sj
  end = Some subject ->
  found_in ref_re l3 = false -> rest_after "REF: " rf = Some reference ->
  content_fields (split LF contentText)
  = ([eoline_element eo; tags_element tags; subject_element subject; ref_element reference],
     []).
Proof.
  intros Hsplit H0 Heo H1 Htg H2 Hsj H3 Hrf.
  assert (Hin : forall line, In line (split LF contentText) -> contains LF line = false)
    by (intros line; apply split_free).
  rewrite Hsplit in Hin.
  assert (Feo : contains LF eo = false) by (apply Hin; apply in_elt).
  assert (Ftg : contains LF tg = false)
    by (apply Hin; apply in_or_app; right; right; apply in_elt).
  assert (Fsj : contains LF sj = false)
    by (apply Hin; apply in_or_app; right; right; apply in_or_app; right; right;
        apply in_elt).
  assert (Frf : contains LF rf = false)
    by (apply Hin; apply in_or_app; right; right; apply in_or_app; right; right;
        apply in_or_app; right; right; apply in_elt).
  assert (Meo : matched eo_re eo = Some eo) by (rewrite (matched_eo eo Feo), Heo; reflexivity).
  assert (Mtg : matched tags_re tg = Some tags) by (now rewrite (matched_tags tg Ftg)).
  assert (Msj : matched subject_re sj = Some subject) by (now rewrite (matched_subject sj Fsj)).
  assert (Mrf : matched ref_re rf = Some reference) by (now rewrite (matched_ref rf Frf)).
  unfold content_fields, extract. rewrite Hsplit.
  rewrite (scan_first eo_re l0 _ eo eo H0 Meo).
  rewrite (scan_first tags_re l1 _ tg tags H1 Mtg).
  rewrite (scan_first subject_re l2 _ sj subject H2 Msj).
  rewrite (scan_first ref_re l3 _ rf reference H3 Mrf).
  reflexivity.
Qed.

(** X14. When the lines of a content text hold, in this order, an E.O.
    line, a TAGS line, a SUBJECT (or SUBJ) line and a REF line, each being
    the first line of its kind after the line before it, all four fields
    are recorded and nothing is printed. The content element then holds
    the E.O. line trimmed, the tags found in the trimmed rest of the TAGS
    line, the trimmed rest of the SUBJECT line, the trimmed rest of the REF
    line, and the full text. *)
Theorem fields_in_order_all_recorded (p : ref) (r e : Element) (x : option Element)
    (o : list string) (contentText : string) (l0 l1 l2 l3 l4 : list string)
    (eo tg sj rf tags subject reference : string) :
  find p r = Some e ->
  split LF contentText = l0 ++ eo :: l1 ++ tg :: l2 ++ sj :: l3 ++ rf :: l4 ->
  found_in eo_re l0 = false -> is_eo_line eo = true ->
  found_in tags_re l1 = false -> rest_after "TAGS: " tg = Some tags ->
  found_in subject_re l2 = false ->
  match rest_after "SUBJECT: " sj with
  | Some rest => Some rest
  | None => rest_after "SUBJ: " sj
  end = Some subject ->
  found_in ref_re l3 = false -> rest_after "REF: " rf = Some reference ->
  parseCableMessageText p contentText {| root := r; xmlString := x; stdout := o |}
  = (Return tt,
     {| root :=
          alter p
            (append
               (mkElement "content" [] None
                  [mkElement "eoline" [] (Some (strip eo)) [];
                   mkElement "tags"
                     [("count", str (List.length (Re.findall tag_re (strip tags))))] None
                     (map (fun t => mkElement "tag" [] (Some t) [])
                        (Re.findall tag_re (strip tags)));
                   mkElement "subject" [] (Some (strip subject)) [];
                   mkElement "ref" [] (Some (strip reference)) [];
                   mkElement "fullText" [] (Some (repr (strip contentText))) []])) r;
        xmlString := x;
        stdout := o |}).
Proof.
  intros Hf Hsplit H0 Heo H1 Htg H2 Hsj H3 Hrf.
  rewrite (parseCableMessageText_run p contentText r e x o Hf).
  unfold content_element, content_lines.
  rewrite (content_fields_in_order contentText l0 l1 l2 l3 l4 eo tg sj rf tags subject
             reference Hsplit H0 Heo H1 Htg H2 Hsj H3 Hrf).
  cbn [fst snd app]. rewrite app_nil_r. reflexivity.
Qed.

Lemma fields_in_order_all_recorded_witness :
  parseCableMessageText [] sample_content
    {| root := root fresh_cable; xmlString := None; stdout := [] |}
  = (Return tt,
     {| root :=
          alter []
            (append
               (mkElement "content" [] None
                  [mkElement "eoline" [] (Some (strip "E.O. 11652: N/A")) [];
                   mkElement "tags"
                     [("count", str (List.length (Re.findall tag_re (strip "PFOR, IR"))))] None
                     (map (fun t => mkElement "tag" [] (Some t) [])
                        (Re.findall tag_re (strip "PFOR, IR")));
                   mkElement "subject" [] (Some (strip "Hello")) [];
                   mkElement "ref" [] (Some (strip "STATE 1")) [];
                   mkElement "fullText" [] (Some (repr (strip sample_content))) []]))
            (root fresh_cable);
        xmlString := None;
        stdout := [] |}).
Proof.
  exact (fields_in_order_all_recorded [] (root fresh_cable) (root fresh_cable) None []
           sample_content [] [] [] [] []
           "E.O. 11652: N/A" "TAGS: PFOR, IR" "SUBJECT: Hello" "REF: STATE 1"
           "PFOR, IR" "Hello" "STATE 1"
           eq_refl eq_refl eq_refl eq_refl eq_refl eq_refl eq_refl eq_refl eq_refl
           eq_refl).
Defined.

(** X15. A field that lies before the field found last is missed. When no
    line is an E.O. line, the first TAGS line is recorded, and when no
    SUBJECT line comes after that TAGS line, no subject is recorded and its
    warning is printed, whatever SUBJECT lines come before the TAGS line.
    The scan for REF then starts again from the first line. *)
Theorem field_before_cursor_is_missed (p : ref) (r e : Element) (x : option Element)
    (o : list string) (contentText : string) (pre post : list string) (tg tags : string) :
  find p r = Some e ->
  split LF contentText = pre ++ tg :: post ->
  found_in eo_re (pre ++ tg :: post) = false ->
  found_in tags_re pre = false -> rest_after "TAGS: " tg = Some tags ->
  found_in subject_re post = false ->
  exists content,
    parseCableMessageText p contentText {| root := r; xmlString := x; stdout := o |}
    = (Return tt,
       {| root := alter p (append content) r; xmlString := x;
          stdout := o ++ [WARN_EO; WARN_SUBJECT] |})
    /\ recorded "eoline" content = false
    /\ recorded "tags" content = true
    /\ recorded "subject" content = false
    /\ recorded "ref" content = found_in ref_re (pre ++ tg :: post).
Proof.
  intros Hf Hsplit Heo Hpre Htg Hpost.
  assert (Ftg : contains LF tg = false).
  { apply (split_free LF contentText). rewrite Hsplit. apply in_elt. }
  assert (Mtg : matched tags_re tg = Some tags) by (now rewrite (matched_tags tg Ftg)).
  exists (content_element contentText).
  rewrite (parseCableMessageText_run p contentText r e x o Hf).
  unfold content_element, content_lines, content_fields, extract.
  rewrite Hsplit. rewrite (scan_none eo_re _ Heo).
  rewrite (scan_first tags_re pre post tg tags Hpre Mtg).
  rewrite (scan_none subject_re _ Hpost).
  rewrite (scan_found ref_re (pre ++ tg :: post)).
  destruct (scan ref_re (pre ++ tg :: post)) as [[v rest]|]; cbn [fst snd app];
    repeat split.
Qed.

Lemma field_before_cursor_is_missed_witness :
  exists content,
    parseCableMessageText [] subject_first_text fresh_cable
    = (Return tt,
       {| root := alter [] (append content) (root fresh_cable); xmlString := None;
          stdout := [] ++ [WARN_EO; WARN_SUBJECT] |})
    /\ recorded "eoline" content = false
    /\ recorded "tags" content = true
    /\ recorded "subject" content = false
    /\ recorded "ref" content = found_in ref_re (["SUBJECT: Hello"] ++ "TAGS: a, b" :: []).
Proof.
  exact (field_before_cursor_is_missed [] (root fresh_cable) (root fresh_cable) None []
           subject_first_text ["SUBJECT: Hello"] [] "TAGS: a, b" "a, b"
           eq_refl eq_refl eq_refl eq_refl eq_refl eq_refl).
Defined.

(** ** The lists of the header *)

(** X16. When the header of a record of 8 values matches, the from and to
    blocks are never empty: each has at least one institution, so the
    count 0 that the code provides for them never occurs. The info block
    has no institution exactly when the header has no INFO section. *)
Theorem header_lists_not_empty (csvLine : list string) (st : state)
    (e : nat) (m : captures) :
  List.length csvLine = 8 ->
  rmatch header_re (nth 6 csvLine EmptyString) = Some (e, m) ->
  exists cable lines header from to info,
    parseCSVLine csvLine st
    = (Return tt,
       {| root := append cable (root st);
          xmlString := Some (append cable (root st));
          stdout := stdout st ++ lines |})
    /\ ET.findall "header" cable = [header]
    /\ ET.findall "from" header = [from] /\ children from <> []
    /\ ET.findall "to" header = [to] /\ children to <> []
    /\ ET.findall "info" header = [info]
    /\ (children info = [] <-> group m 6 = None).
Proof.
  intros Hlen Hm.
  destruct (rmatch_binds header_re 4 _ e m eq_refl Hm) as [fromlist Hfrom].
  destruct (rmatch_binds header_re 5 _ e m eq_refl Hm) as [tolist Hto].
  exists (cable_element csvLine), (cable_lines csvLine),
         (header_element (nth 6 csvLine EmptyString)),
         (institution_list "from" (group m 4)), (institution_list "to" (group m 5)),
         (institution_list "info" (group m 6)).
  split; [now apply parseCSVLine_cable|].
  destruct (header_of_cable csvLine Hlen) as [Hh _]. split; [exact Hh|].
  unfold header_element. rewrite Hm.
  assert (Hne : forall which v, children (institution_list which (Some v)) <> []).
  { intros which v. unfold institution_list, institutions. cbn [children].
    pose proof (split_not_nil LF (strip v)) as H.
    destruct (split LF (strip v)); [congruence | discriminate]. }
  split; [reflexivity|]. split; [rewrite Hfrom; apply Hne|].
  split; [reflexivity|]. split; [rewrite Hto; apply Hne|].
  split; [reflexivity|].
  destruct (group m 6) as [v|].
  - split; [intros H; now apply Hne in H | discriminate].
  - split; reflexivity.
Qed.

Lemma header_lists_not_empty_witness :
  exists cable lines header from to info,
    parseCSVLine sample_record init
    = (Return tt,
       {| root := append cable (root init);
          xmlString := Some (append cable (root init));
          stdout := stdout init ++ lines |})
    /\ ET.findall "header" cable = [header]
    /\ ET.findall "from" header = [from] /\ children from <> []
    /\ ET.findall "to" header = [to] /\ children to <> []
    /\ ET.findall "info" header = [info]
    /\ children info <> [].
Proof.
  destruct (rmatch header_re (nth 6 sample_record EmptyString)) as [[e m]|] eqn:E;
    [|vm_compute in E; discriminate E].
  destruct (header_lists_not_empty sample_record init e m eq_refl E)
    as (cable & lines & header & from & to & info & Hrun & Hh & Hf & Hfn & Ht & Htn & Hi & Hiff).
  exists cable, lines, header, from, to, info.
  repeat (split; [assumption|]).
  intros Hnil. apply Hiff in Hnil. vm_compute in E. injection E as <- <-.
  discriminate Hnil.
Defined.

(** ** More on the content block and on the lines printed *)

Lemma scan_inv (re : regex) (cursor rest : list string) (v : string) :
  binds re 1 = true ->
  scan re cursor = Some (v, rest) ->
  exists pre line,
    cursor = pre ++ line :: rest /\ found_in re pre = false /\ matched re line = Some v.
Proof.
  intros Hb. induction cursor as [|l cursor IH]; [discriminate|]. cbn [scan].
  destruct (rmatch re l) as [[e m]|] eqn:E.
  - intros H. injection H as <- <-. exists [], l. split; [reflexivity|].
    split; [reflexivity|]. unfold matched, captured. rewrite E.
    destruct (rmatch_binds re 1 l e m Hb E) as [v Hv]. now rewrite Hv.
  - intros H. destruct (IH H) as (pre & line & -> & Hpre & Hm).
    exists (l :: pre), line. split; [reflexivity|]. split; [|exact Hm].
    cbn [found_in existsb]. rewrite E. exact Hpre.
Qed.

Lemma found_in_eo (ls : list string) :
  (forall line, In line ls -> contains LF line = false) ->
  found_in eo_re ls = existsb is_eo_line ls.
Proof.
  induction ls as [|l ls IH]; intros Hfree; [reflexivity|].
  cbn [found_in existsb]. fold (found_in eo_re ls).
  rewrite IH by (intros line Hl; apply Hfree; now right). f_equal.
  pose proof (matched_eo l (Hfree l (or_introl eq_refl))) as Hm. unfold matched in Hm.
  destruct (rmatch eo_re l) as [[e m]|] eqn:E.
  - destruct (rmatch_binds eo_re 1 l e m eq_refl E) as [v Hv]. rewrite Hv in Hm.
    destruct (is_eo_line l); [reflexivity | discriminate].
  - destruct (is_eo_line l); [discriminate | reflexivity].
Qed.

(** X17. The E.O. line is looked for from the first line, whatever the
    rest of the text holds: it is recorded exactly when some line is an
    E.O. line, and what is recorded is the first such line, trimmed;
    otherwise no E.O. element is recorded and the warning is printed
    once. *)
Theorem eoline_is_first_eo_line (p : ref) (r e : Element) (x : option Element)
    (o : list string) (contentText : string) :
  find p r = Some e ->
  exists content lines,
    parseCableMessageText p contentText {| root := r; xmlString := x; stdout := o |}
    = (Return tt,
       {| root := alter p (append content) r; xmlString := x; stdout := o ++ lines |})
    /\ ((existsb is_eo_line (split LF contentText) = false
         /\ ET.findall "eoline" content = []
         /\ occurrences WARN_EO lines = 1)
        \/ (exists pre eo post,
              split LF contentText = pre ++ eo :: post
              /\ existsb is_eo_line pre = false
              /\ is_eo_line eo = true
              /\ ET.findall "eoline" content = [mkElement "eoline" [] (Some (strip eo)) []]
              /\ occurrences WARN_EO lines = 0)).
Proof.
  intros Hf. exists (content_element contentText), (content_lines contentText).
  split; [now apply parseCableMessageText_run with (e := e)|].
  assert (Hfree : forall line, In line (split LF contentText) -> contains LF line = false)
    by (intros line; apply split_free).
  unfold content_element, content_lines, content_fields, extract.
  destruct (scan eo_re (split LF contentText)) as [[v1 it1]|] eqn:E1.
  - right. destruct (scan_inv eo_re _ _ _ eq_refl E1) as (pre & eo & Hsplit & Hpre & Hm).
    rewrite Hsplit in Hfree.
    assert (Feo : contains LF eo = false) by (apply Hfree, in_elt).
    rewrite (matched_eo eo Feo) in Hm.
    destruct (is_eo_line eo) eqn:Heo; [|discriminate]. injection Hm as <-.
    exists pre, eo, it1. split; [exact Hsplit|]. split.
    { rewrite <- found_in_eo; [exact Hpre|].
      intros line Hl. apply Hfree, in_or_app. now left. }
    split; [exact Heo|].
    match goal with |- context [scan tags_re ?it] => destruct (scan tags_re it) as [[v2 it2]|] end;
    match goal with |- context [scan subject_re ?it] => destruct (scan subject_re it) as [[v3 it3]|] end;
    match goal with |- context [scan ref_re ?it] => destruct (scan ref_re it) as [[v4 it4]|] end;
    split; reflexivity.
  - left. split.
    { rewrite <- found_in_eo by exact Hfree. rewrite scan_found, E1. reflexivity. }
    match goal with |- context [scan tags_re ?it] => destruct (scan tags_re it) as [[v2 it2]|] end;
    match goal with |- context [scan subject_re ?it] => destruct (scan subject_re it) as [[v3 it3]|] end;
    match goal with |- context [scan ref_re ?it] => destruct (scan ref_re it) as [[v4 it4]|] end;
    split; reflexivity.
Qed.

Lemma eoline_is_first_eo_line_witness :
  exists content lines,
    parseCableMessageText [] sample_content
      {| root := root fresh_cable; xmlString := None; stdout := [] |}
    = (Return tt,
       {| root := alter [] (append content) (root fresh_cable); xmlString := None;
          stdout := [] ++ lines |})
    /\ ((existsb is_eo_line (split LF sample_content) = false
         /\ ET.findall "eoline" content = []
         /\ occurrences WARN_EO lines = 1)
        \/ (exists pre eo post,
              split LF sample_content = pre ++ eo :: post
              /\ existsb is_eo_line pre = false
              /\ is_eo_line eo = true
              /\ ET.findall "eoline" content = [mkElement "eoline" [] (Some (strip eo)) []]
              /\ occurrences WARN_EO lines = 0)).
Proof.
  exact (eoline_is_first_eo_line [] (root fresh_cable) (root fresh_cable) None []
           sample_content eq_refl).
Defined.

Lemma repr_char_plain (quote c : ascii) :
  (quote = SQUOTE \/ quote = DQUOTE) ->
  contains LF (repr_char quote c) = false
  /\ contains CR (repr_char quote c) = false
  /\ contains TAB (repr_char quote c) = false.
Proof.
  intros [->| ->];
    destruct c as [[|] [|] [|] [|] [|] [|] [|] [|]]; vm_compute; repeat split.
Qed.

Lemma contains_append (c : ascii) (s1 s2 : string) :
  contains c (s1 ++ s2)%string = contains c s1 || contains c s2.
Proof.
  induction s1 as [|d s1 IH]; [reflexivity|]. cbn [String.append contains].
  now rewrite IH, orb_assoc.
Qed.

Lemma repr_body_plain (quote : ascii) (s : string) :
  (quote = SQUOTE \/ quote = DQUOTE) ->
  contains LF (repr_body quote s) = false
  /\ contains CR (repr_body quote s) = false
  /\ contains TAB (repr_body quote s) = false.
Proof.
  intros Hq. induction s as [|c s (IH1 & IH2 & IH3)]; [repeat split|].
  cbn [repr_body]. rewrite !contains_append, IH1, IH2, IH3.
  destruct (repr_char_plain quote c Hq) as (H1 & H2 & H3). now rewrite H1, H2, H3.
Qed.

Lemma repr_plain (s : string) :
  contains LF (repr s) = false /\ contains CR (repr s) = false
  /\ contains TAB (repr s) = false.
Proof.
  unfold repr.
  set (quote := if contains SQUOTE s && negb (contains DQUOTE s) then DQUOTE else SQUOTE).
  assert (Hq : quote = SQUOTE \/ quote = DQUOTE)
    by (subst quote; destruct (contains SQUOTE s && negb (contains DQUOTE s)); auto).
  destruct (repr_body_plain quote s Hq) as (H1 & H2 & H3).
  cbn [contains]. rewrite !contains_append, H1, H2, H3. cbn [contains].
  destruct Hq as [->| ->]; repeat split.
Qed.

(** X18. The content block always ends with the full text: the last child
    of the content element is fullText, whatever fields were found, and its
    text is [repr] of the trimmed content, which holds no line feed, no
    carriage return and no tab: they are written as escapes, so the full
    text stays on one line. *)
Theorem full_text_is_last_and_plain (p : ref) (r e : Element) (x : option Element)
    (o : list string) (contentText : string) :
  find p r = Some e ->
  exists content lines,
    parseCableMessageText p contentText {| root := r; xmlString := x; stdout := o |}
    = (Return tt,
       {| root := alter p (append content) r; xmlString := x; stdout := o ++ lines |})
    /\ last_child content = mkElement "fullText" [] (Some (repr (strip contentText))) []
    /\ ET.findall "fullText" content = [last_child content]
    /\ contains LF (repr (strip contentText)) = false
    /\ contains CR (repr (strip contentText)) = false
    /\ contains TAB (repr (strip contentText)) = false.
Proof.
  intros Hf. exists (content_element contentText), (content_lines contentText).
  split; [now apply parseCableMessageText_run with (e := e)|].
  destruct (repr_plain (strip contentText)) as (H1 & H2 & H3).
  split; [|split; [|repeat split; assumption]].
  - unfold last_child, content_element. cbn [children]. apply last_last.
  - unfold last_child, content_element. cbn [children]. rewrite last_last.
    unfold content_fields, extract.
    destruct (scan eo_re _) as [[v1 it1]|];
    match goal with |- context [scan tags_re ?it] => destruct (scan tags_re it) as [[v2 it2]|] end;
    match goal with |- context [scan subject_re ?it] => destruct (scan subject_re it) as [[v3 it3]|] end;
    match goal with |- context [scan ref_re ?it] => destruct (scan ref_re it) as [[v4 it4]|] end;
    reflexivity.
Qed.

Lemma full_text_is_last_and_plain_witness :
  exists content lines,
    parseCableMessageText [] sample_content
      {| root := root fresh_cable; xmlString := None; stdout := [] |}
    = (Return tt,
       {| root := alter [] (append content) (root fresh_cable); xmlString := None;
          stdout := [] ++ lines |})
    /\ last_child content = mkElement "fullText" [] (Some (repr (strip sample_content))) []
    /\ ET.findall "fullText" content = [last_child content]
    /\ contains LF (repr (strip sample_content)) = false
    /\ contains CR (repr (strip sample_content)) = false
    /\ contains TAB (repr (strip sample_content)) = false.
Proof.
  exact (full_text_is_last_and_plain [] (root fresh_cable) (root fresh_cable) None []
           sample_content eq_refl).
Defined.

(** X19. The lines one record prints are warnings, in a fixed order and
    each at most once: the time, the header, the E.O. line, the TAGS and
    the SUBJECT. A record prints at most five lines and never an error. *)
Theorem warnings_in_fixed_order (csvLine : list string) (st : state) :
  List.length csvLine = 8 ->
  exists cable lines,
    parseCSVLine csvLine st
    = (Return tt,
       {| root := append cable (root st);
          xmlString := Some (append cable (root st));
          stdout := stdout st ++ lines |})
    /\ subsequence lines [WARN_TIME; WARN_HEADER; WARN_EO; WARN_TAGS; WARN_SUBJECT] = true
    /\ List.length lines <= 5
    /\ errors lines = 0.
Proof.
  intros Hlen. exists (cable_element csvLine), (cable_lines csvLine).
  split; [now apply parseCSVLine_cable|].
  split; [|split; [|apply cable_lines_no_error]].
  - unfold cable_lines, datetime_lines, header_lines.
    destruct (content_lines_cases (field csvLine 7)) as (a & b & c & ->).
    destruct (strptime _), (rmatch header_re _), a, b, c; reflexivity.
  - unfold cable_lines, datetime_lines, header_lines.
    destruct (content_lines_cases (field csvLine 7)) as (a & b & c & ->).
    destruct (strptime _), (rmatch header_re _), a, b, c; simpl; lia.
Qed.

Lemma warnings_in_fixed_order_witness :
  exists cable lines,
    parseCSVLine unparsed_time_record init
    = (Return tt,
       {| root := append cable (root init);
          xmlString := Some (append cable (root init));
          stdout := stdout init ++ lines |})
    /\ subsequence lines [WARN_TIME; WARN_HEADER; WARN_EO; WARN_TAGS; WARN_SUBJECT] = true
    /\ List.length lines <= 5
    /\ errors lines = 0.
Proof. exact (warnings_in_fixed_order unparsed_time_record init eq_refl). Defined.

(** X20. A record of 8 values whose timestamp parses, whose header
    matches and whose content holds the four field lines in order prints
    nothing, and its cable has the five components of the date and time,
    the four scalar and list blocks, and a content block with all four
    fields. *)
Theorem well_formed_record_prints_nothing (csvLine : list string) (st : state)
    (l0 l1 l2 l3 l4 : list string) (eo tg sj rf tags subject reference : string) :
  List.length csvLine = 8 ->
  strptime (nth 1 csvLine EmptyString) <> None ->
  rmatch header_re (nth 6 csvLine EmptyString) <> None ->
  split LF (nth 7 csvLine EmptyString)
  = l0 ++ eo :: l1 ++ tg :: l2 ++ sj :: l3 ++ rf :: l4 ->
  found_in eo_re l0 = false -> is_eo_line eo = true ->
  found_in tags_re l1 = false -> rest_after "TAGS: " tg = Some tags ->
  found_in subject_re l2 = false ->
  match rest_after "SUBJECT: " sj with
  | Some rest => Some rest
  | None => rest_after "SUBJ: " sj
  end = Some subject ->
  found_in ref_re l3 = false -> rest_after "REF: " rf = Some reference ->
  exists cable content,
    parseCSVLine csvLine st
    = (Return tt,
       {| root := append cable (root st);
          xmlString := Some (append cable (root st));
          stdout := stdout st |})
    /\ map tag (children cable)
       = ["year"; "month"; "day"; "hour"; "minute";
          "reference"; "origin"; "classification"; "sources"; "header"; "content"]
    /\ ET.findall "content" cable = [content]
    /\ map tag (children content) = ["eoline"; "tags"; "subject"; "ref"; "fullText"].
Proof.
  intros Hlen Htime Hheader Hsplit H0 Heo H1 Htg H2 Hsj H3 Hrf.
  exists (cable_element csvLine), (content_element (nth 7 csvLine EmptyString)).
  rewrite (parseCSVLine_cable csvLine st Hlen).
  pose proof (content_fields_in_order _ l0 l1 l2 l3 l4 eo tg sj rf tags subject reference
                Hsplit H0 Heo H1 Htg H2 Hsj H3 Hrf) as Hc.
  eight_fields csvLine Hlen. cbn [nth] in *.
  unfold cable_lines, cable_element, field, datetime_lines, datetime_elements, header_lines,
    content_lines, content_element; cbn [nth].
  rewrite Hc.
  destruct (strptime f1); [|congruence].
  destruct (rmatch header_re f6); [|congruence].
  cbn [app snd fst]. rewrite app_nil_r. repeat split.
Qed.

Lemma well_formed_record_prints_nothing_witness :
  exists cable content,
    parseCSVLine sample_record init
    = (Return tt,
       {| root := append cable (root init);
          xmlString := Some (append cable (root init));
          stdout := stdout init |})
    /\ map tag (children cable)
       = ["year"; "month"; "day"; "hour"; "minute";
          "reference"; "origin"; "classification"; "sources"; "header"; "content"]
    /\ ET.findall "content" cable = [content]
    /\ map tag (children content) = ["eoline"; "tags"; "subject"; "ref"; "fullText"].
Proof.
  apply (well_formed_record_prints_nothing sample_record init [] [] [] [] []
           "E.O. 11652: N/A" "TAGS: PFOR, IR" "SUBJECT: Hello" "REF: STATE 1"
           "PFOR, IR" "Hello" "STATE 1" eq_refl).
  - vm_compute. discriminate.
  - vm_compute. discriminate.
  - reflexivity.
  - reflexivity.
  - reflexivity.
  - reflexivity.
  - reflexivity.
  - reflexivity.
  - reflexivity.
  - reflexivity.
  - reflexivity.
Defined.
